(** * The adaptive interview engine of [app.py] ([ExcelInterviewer])

    A shallow embedding of the session engine: the question bank, the
    session store, adaptive question selection, the two evaluators and
    the final report, followed by the properties of the specification
    that were checked against it.

    Conventions of the embedding.
    - Python [int]s are [Z]; the session dictionary [self.sessions] is a
      [gmap string session]; the dict-shaped sessions, questions,
      evaluations and answers are records with the keys as fields.
    - Text is [string]; [str.split()], [str.lower()] and [in] are given
      for ASCII text.
    - What the source reads from its environment is an argument of the
      operation that reads it: the clock ([datetime.now()]), the fresh
      identifier ([uuid.uuid4()]), the random draw ([random.choice]) and
      the reply of the remote evaluator. A reply is an evaluation with
      its four keys and an integer score; what depends on the shape of
      the stored evaluations is stated for an engine without a client,
      where every evaluation comes from the fallback evaluator.
    - Where the source compares or divides in double precision
      ([total_score / max_score > 0.8], [points * 0.8], the percentage,
      the duration) the embedding computes the exact rational value. *)

From Stdlib Require Import ZArith QArith Qround Ascii String DecimalString.
From stdpp Require Import base decidable option list strings gmap fin_maps.

Local Open Scope string_scope.
Local Open Scope list_scope.
Local Open Scope Z_scope.

(** ** Text *)

Module Text.

(** The characters at which [str.split()] separates: tab, line feed,
    vertical tab, form feed, carriage return, the four separators
    [0x1c]..[0x1f], and the space. *)
Definition is_space (c : ascii) : bool :=
  let n := nat_of_ascii c in
  ((9 <=? n)%nat && (n <=? 13)%nat) || ((28 <=? n)%nat && (n <=? 32)%nat).

(** [split_from s w]: the words of [s], where [w] is the word being read. *)
Fixpoint split_from (s w : string) : list string :=
  match s with
  | EmptyString => if decide (w = "") then [] else [w]
  | String c s' =>
      if is_space c
      then (if decide (w = "") then split_from s' "" else w :: split_from s' "")
      else split_from s' (w +:+ String c "")
  end.

(** [response.split()] *)
Definition split (s : string) : list string := split_from s "".

Definition lower_char (c : ascii) : ascii :=
  let n := nat_of_ascii c in
  if ((65 <=? n)%nat && (n <=? 90)%nat)%bool then ascii_of_nat (n + 32) else c.

(** [response.lower()] *)
Fixpoint lower (s : string) : string :=
  match s with
  | EmptyString => EmptyString
  | String c s' => String (lower_char c) (lower s')
  end.

(** [keyword in text] *)
Fixpoint contains (keyword text : string) : bool :=
  String.prefix keyword text ||
  match text with
  | EmptyString => false
  | String _ text' => contains keyword text'
  end.

(** [sep.join(parts)] *)
Fixpoint join (sep : string) (parts : list string) : string :=
  match parts with
  | [] => ""
  | [p] => p
  | p :: ps => p +:+ sep +:+ join sep ps
  end.

End Text.

(** ** Data model *)

(** A row of the question bank. *)
Record question := Question {
  category : string;
  difficulty : Z;
  question_text : string;
  ideal_answer : string;
  points : Z
}.

#[global] Instance question_eq_dec : EqDecision question.
Proof. solve_decision. Defined.

(** The dictionary an evaluator returns. *)
Record evaluation := Evaluation {
  score : Z;
  feedback : string;
  strengths : list string;
  improvements : list string
}.

#[global] Instance evaluation_eq_dec : EqDecision evaluation.
Proof. solve_decision. Defined.

(** ** The deterministic fallback evaluator *)

(** [technical_keywords], in the order of the dictionary literal. *)
Definition technical_keywords : list (string * list string) :=
  [ ("vlookup", ["vlookup"; "lookup"; "vertical"]);
    ("pivot", ["pivot"; "table"; "summarize"; "group"]);
    ("formula", ["formula"; "function"; "calculate"]);
    ("formatting", ["format"; "conditional"; "highlight"]);
    ("reference", ["reference"; "absolute"; "relative"; "$"]);
    ("macro", ["macro"; "vba"; "automate"; "script"]) ].

(** [any(keyword in text for keyword in keywords)] *)
Definition any_keyword_in (keywords : list string) (text : string) : bool :=
  existsb (fun keyword => Text.contains keyword text) keywords.

(** One turn of the loop over [technical_keywords]; the accumulator is
    [(keyword_bonus, found_keywords)]. *)
Definition keyword_step (question_lower response_lower : string)
    (acc : Z * list string) (entry : string * list string) : Z * list string :=
  let '(keyword_bonus, found_keywords) := acc in
  let '(topic, keywords) := entry in
  if any_keyword_in keywords question_lower then
    if any_keyword_in keywords response_lower then
      (keyword_bonus + 2, found_keywords ++ [topic])
    else acc
  else acc.

Definition keyword_scan (question_lower response_lower : string) : Z * list string :=
  fold_left (keyword_step question_lower response_lower) technical_keywords (0, []).

Definition evaluate_response_fallback (response : string) (current_question : question)
    : evaluation :=
  let response_words := Text.split response in
  let response_length := Z.of_nat (length response_words) in
  let base_score := Z.min (points current_question) (Z.max 1 (response_length / 5)) in
  let response_lower := Text.lower response in
  let question_lower := Text.lower (question_text current_question) in
  let '(keyword_bonus, found_keywords) := keyword_scan question_lower response_lower in
  let final_score := Z.min (points current_question) (base_score + keyword_bonus) in
  let '(feedback, strengths) :=
    (* final_score >= points * 0.8 *)
    if 4 * points current_question <=? 5 * final_score then
      ("Good comprehensive answer covering key concepts.",
       ["Covers main points"; "Good technical understanding"])
    (* final_score >= points * 0.6 *)
    else if 3 * points current_question <=? 5 * final_score then
      ("Solid answer with room for more detail.", ["Basic concepts covered"])
    else
      ("Answer needs more technical detail and examples.", ["Response provided"]) in
  let improvements := [] in
  let improvements :=
    if response_length <? 20
    then improvements ++ ["Provide more detailed explanations"] else improvements in
  let improvements :=
    if decide (found_keywords = [])
    then improvements ++ ["Include more technical terminology"] else improvements in
  let improvements :=
    if decide (length improvements = 0%nat)
    then improvements ++ ["Consider adding practical examples"] else improvements in
  {| score := final_score;
     feedback := feedback;
     strengths := strengths;
     improvements := improvements |}.

(** ** Sessions and the engine *)

(** Clock readings ([datetime.now()]), in microseconds. [isoformat] and
    [fromisoformat] are inverse to each other and left out. *)
Definition timestamp := Z.

(** An entry of [session['responses']]. *)
Record answer := Answer {
  answer_question : string;
  answer_response : string;
  answer_evaluation : evaluation;
  answer_timestamp : timestamp
}.

#[global] Instance answer_eq_dec : EqDecision answer.
Proof. solve_decision. Defined.

(** [session['status']] is ['active'] or ['completed']. *)
Inductive status := active | completed.

#[global] Instance status_eq_dec : EqDecision status.
Proof. solve_decision. Defined.

Record session := Session {
  session_id : string;
  current_question : Z;
  total_score : Z;
  max_score : Z;
  responses : list answer;
  difficulty_level : Z;
  questions_asked : list question;
  started_at : timestamp;
  completed_at : option timestamp;
  session_status : status
}.

(** The entries of [self.config] that the engine's decisions read; the
    others only parametrise the request to the remote evaluator. *)
Record config := Config {
  max_questions : Z;
  min_response_length : Z
}.

(** [ExcelInterviewer]. [groq_client] tells whether a client was set up. *)
Record interviewer := Interviewer {
  interviewer_config : config;
  groq_client : bool;
  sessions : gmap string session;
  questions : list question
}.

Definition with_sessions (iv : interviewer) (m : gmap string session) : interviewer :=
  {| interviewer_config := interviewer_config iv;
     groq_client := groq_client iv;
     sessions := m;
     questions := questions iv |}.

(** [load_questions]: the rows of the embedded table, as [csv.DictReader]
    reads them. *)
Definition load_questions : list question :=
  [
    {| category := "Basic";
       difficulty := 1;
       question_text :=
         "Explain the difference between VLOOKUP and INDEX-MATCH functions.";
       ideal_answer :=
         "VLOOKUP searches vertically in first column and returns value from specified column. INDEX-MATCH is more flexible - INDEX returns value at intersection, MATCH finds position. INDEX-MATCH can look left, handles column insertions better, and is generally more robust.";
       points := 20 |};
    {| category := "Basic";
       difficulty := 1;
       question_text :=
         "How would you remove duplicates from a dataset in Excel?";
       ideal_answer :=
         "Multiple methods: 1) Data tab > Remove Duplicates tool, 2) Advanced Filter with 'Unique records only', 3) Using formulas like UNIQUE() function in newer Excel versions. Remove Duplicates is most common for simple cases.";
       points := 15 |};
    {| category := "Intermediate";
       difficulty := 2;
       question_text :=
         "You have sales data with dates, regions, and amounts. How would you create a summary showing total sales by month and region?";
       ideal_answer :=
         "Create a Pivot Table: 1) Select data, 2) Insert > PivotTable, 3) Drag Date to Rows (group by month), Region to Columns, Amount to Values (SUM). Alternatively use SUMIFS with date criteria or Power Query for complex scenarios.";
       points := 25 |};
    {| category := "Intermediate";
       difficulty := 2;
       question_text :=
         "Explain conditional formatting and give a practical example.";
       ideal_answer :=
         "Conditional formatting applies visual formatting based on cell values or formulas. Example: Highlight cells >1000 in green, <500 in red for sales targets. Use Home > Conditional Formatting, choose rule type, set conditions and formatting. Useful for data bars, color scales, icon sets.";
       points := 20 |};
    {| category := "Advanced";
       difficulty := 3;
       question_text :=
         "How would you automate a repetitive task in Excel?";
       ideal_answer :=
         "Multiple approaches: 1) Record Macro (Developer tab), 2) Write VBA code for complex logic, 3) Use Power Query for data transformations, 4) Power Automate for workflow automation. Macros best for repetitive formatting/calculations, Power Query for data processing.";
       points := 30 |};
    {| category := "Advanced";
       difficulty := 3;
       question_text :=
         "Explain dynamic arrays and spill ranges in modern Excel.";
       ideal_answer :=
         "Dynamic arrays automatically resize based on formula results. Functions like FILTER, SORT, UNIQUE return arrays that 'spill' into adjacent cells. Spill range is the area occupied by dynamic array. Use # to reference entire spill range. Enables more powerful, flexible formulas.";
       points := 25 |};
    {| category := "Basic";
       difficulty := 1;
       question_text :=
         "What's the difference between relative and absolute cell references?";
       ideal_answer :=
         "Relative references (A1) change when copied to different cells. Absolute references ($A$1) stay fixed. Mixed references ($A1 or A$1) fix either row or column. Use F4 to toggle reference types. Critical for formulas that need fixed reference points.";
       points := 15 |};
    {| category := "Intermediate";
       difficulty := 2;
       question_text :=
         "How would you handle errors in Excel formulas?";
       ideal_answer :=
         "Use error handling functions: IFERROR, ISERROR, IFNA. Example: =IFERROR(VLOOKUP(A1,data,2,FALSE),'Not Found'). Also use data validation to prevent errors, check for #N/A, #VALUE!, #DIV/0! etc. Power Query also has error handling capabilities.";
       points := 20 |} ].

(** [ExcelInterviewer.__init__] with the defaults of the environment
    variables and no remote client. *)
Definition default_config : config :=
  {| max_questions := 5; min_response_length := 5 |}.

Definition init (cfg : config) (client : bool) : interviewer :=
  {| interviewer_config := cfg;
     groq_client := client;
     sessions := ∅;
     questions := load_questions |}.

(** The dictionary [create_session] stores. *)
Definition new_session (session_id : string) (now : timestamp) : session :=
  {| session_id := session_id;
     current_question := 0;
     total_score := 0;
     max_score := 0;
     responses := [];
     difficulty_level := 1;
     questions_asked := [];
     started_at := now;
     completed_at := None;
     session_status := active |}.

Definition create_session (iv : interviewer) (uuid : string) (now : timestamp)
    : string * interviewer :=
  let session_id := uuid in
  (session_id,
   with_sessions iv (<[session_id := new_session session_id now]> (sessions iv))).

(** The dictionary [get_next_question] returns. *)
Record question_view := QuestionView {
  question_number : Z;
  view_question : string;
  view_category : string;
  view_difficulty : Z;
  total_questions : Z
}.

(** [random.choice(seq)] with draw [r]. *)
Definition random_choice {A} (r : nat) (seq : list A) : option A :=
  seq !! (r mod length seq)%nat.

(** [total_score / max_score if max_score > 0 else 0] *)
Definition success_rate (s : session) : Q :=
  if 0 <? max_score s then (total_score s # Z.to_pos (max_score s))%Q else 0%Q.

Definition Qgtb (x y : Q) : bool := negb (Qle_bool x y).
Definition Qltb (x y : Q) : bool := negb (Qle_bool y x).

(** The difficulty level after the adjustment made for a question that is
    not the first. *)
Definition adjust_difficulty (s : session) : Z :=
  if Qgtb (success_rate s) (8 # 10) then Z.min 3 (difficulty_level s + 1)
  else if Qltb (success_rate s) (4 # 10) then Z.max 1 (difficulty_level s)
  else difficulty_level s.

(** [available_questions] *)
Definition available_questions (iv : interviewer) (s : session) : list question :=
  filter (fun q => difficulty q <= difficulty_level s + 1 /\ q ∉ questions_asked s)
         (questions iv).

(** The selection among the available questions, of which [first] is the
    first: the difficulty level the session has afterwards and the
    question chosen. *)
Definition select_question (s : session) (r : nat) (first : question)
    (available : list question) : Z * question :=
  if current_question s =? 0 then
    (difficulty_level s,
     default first (head (filter (fun q => difficulty q = 1) available)))
  else
    let level := adjust_difficulty s in
    let suitable := filter (fun q => difficulty q = level) available in
    (level,
     default first
       (match suitable with
        | [] => random_choice r available
        | _ => random_choice r suitable
        end)).

(** The session once [q] has been chosen at difficulty level [level]: the
    question is appended to [questions_asked], [current_question] is
    incremented and [max_score] grows by the points of [q]. *)
Definition ask (s : session) (level : Z) (q : question) : session :=
  {| session_id := session_id s;
     current_question := current_question s + 1;
     total_score := total_score s;
     max_score := max_score s + points q;
     responses := responses s;
     difficulty_level := level;
     questions_asked := questions_asked s ++ [q];
     started_at := started_at s;
     completed_at := completed_at s;
     session_status := session_status s |}.

Definition view_of (cfg : config) (s : session) (q : question) : question_view :=
  {| question_number := current_question s;
     view_question := question_text q;
     view_category := category q;
     view_difficulty := difficulty q;
     total_questions := max_questions cfg |}.

Definition get_next_question (iv : interviewer) (sid : string) (r : nat)
    : option question_view * interviewer :=
  match sessions iv !! sid with
  | None => (None, iv)
  | Some s =>
      if decide (session_status s <> active) then (None, iv) else
      match available_questions iv s with
      | [] => (None, iv)
      | (first :: _) as available =>
          if max_questions (interviewer_config iv) <=? current_question s
          then (None, iv) else
          let '(level, q) := select_question s r first available in
          let s' := ask s level q in
          (Some (view_of (interviewer_config iv) s' q),
           with_sessions iv (<[sid := s']> (sessions iv)))
      end
  end.

(** The evaluator invocations an operation makes, in order. *)
Inductive call :=
  | GroqCall (sid response : string) (q : question)
  | FallbackCall (response : string) (q : question).

(** [evaluate_response_with_groq]. [reply] is the dictionary parsed from
    the completion, [None] when the request or the parsing raises. A
    reply is taken to have the four keys, with an integer score. *)
Definition evaluate_response_with_groq (iv : interviewer) (reply : option evaluation)
    : option evaluation :=
  if groq_client iv then reply else None.

(** The dictionary returned for a response that is too short. *)
Definition too_short (cfg : config) : evaluation :=
  {| score := 0;
     feedback := "Please provide a more detailed response (minimum "
                 +:+ NilZero.string_of_int (Z.to_int (min_response_length cfg))
                 +:+ " words).";
     strengths := [];
     improvements := ["Provide more detailed explanations"] |}.

(** The session once the evaluation [ev] of [response] to the question
    [current] has been stored. *)
Definition record_answer (s : session) (current : question) (response : string)
    (ev : evaluation) (now : timestamp) : session :=
  {| session_id := session_id s;
     current_question := current_question s;
     total_score := total_score s + score ev;
     max_score := max_score s;
     responses := responses s ++
       [{| answer_question := question_text current;
           answer_response := response;
           answer_evaluation := ev;
           answer_timestamp := now |}];
     difficulty_level := difficulty_level s;
     questions_asked := questions_asked s;
     started_at := started_at s;
     completed_at := completed_at s;
     session_status := session_status s |}.

Definition evaluate_response (iv : interviewer) (sid response : string)
    (reply : option evaluation) (now : timestamp)
    : option evaluation * interviewer * list call :=
  match sessions iv !! sid with
  | None => (None, iv, [])
  | Some s =>
      match last (questions_asked s) with
      | None => (None, iv, [])
      | Some current =>
          if Z.of_nat (length (Text.split response))
             <? min_response_length (interviewer_config iv)
          then (Some (too_short (interviewer_config iv)), iv, [])
          else
            let '(remote, calls) :=
              if groq_client iv
              then (evaluate_response_with_groq iv reply, [GroqCall sid response current])
              else (None, []) in
            let '(ev, calls) :=
              match remote with
              | Some ev => (ev, calls)
              | None => (evaluate_response_fallback response current,
                         calls ++ [FallbackCall response current])
              end in
            let s' := record_answer s current response ev now in
            (Some ev, with_sessions iv (<[sid := s']> (sessions iv)), calls)
      end
  end.

(** ** The final report *)

(** Decimal rendering of an [int]. *)
Definition str (n : Z) : string := NilZero.string_of_int (Z.to_int n).

(** Rounding to the nearest integer, ties to even. *)
Definition round_half_even (x : Q) : Z :=
  let f := Qfloor x in
  let d := (x - inject_Z f)%Q in
  if Qltb d (1 # 2) then f
  else if Qgtb d (1 # 2) then f + 1
  else if Z.even f then f else f + 1.

(** [round(x, 1)] *)
Definition round1 (x : Q) : Q := (round_half_even (x * 10) # 10)%Q.

(** A float with one digit after the point, as [f"{x:.1f}"] prints it and
    as [str] prints a float that [round(x, 1)] returned. *)
Definition fmt_1f (x : Q) : string :=
  let t := Z.abs (round_half_even (x * 10)) in
  (if Qltb x 0 then "-" else "") +:+ str (t / 10) +:+ "." +:+ str (t mod 10).

(** [_calculate_duration]. Without a completion time [fromisoformat]
    raises and the handler returns 0. *)
Definition _calculate_duration (s : session) : Q :=
  match completed_at s with
  | None => 0%Q
  | Some e =>
      let total_seconds := ((e - started_at s) # 1000000)%Q in
      round1 (total_seconds / 60)
  end.

Definition _get_hiring_recommendation (percentage : Q) : string :=
  if Qle_bool 75 percentage then "Strong Hire - Excellent Excel skills demonstrated"
  else if Qle_bool 60 percentage then "Hire - Good Excel foundation with room for growth"
  else if Qle_bool 45 percentage then "Consider - Basic skills present, may need training"
  else "No Hire - Insufficient Excel proficiency for role requirements".

Record report := Report {
  report_session_id : string;
  overall_score : Z;
  max_possible_score : Z;
  percentage : Q;
  proficiency_level : string;
  questions_answered : Z;
  detailed_responses : list answer;
  report_text : string;
  duration_minutes : Q;
  recommendation : string
}.

Inductive exception := IndexError.

(** What a call does: it returns a value or raises. *)
Inductive result (A : Type) :=
  | Returned (a : A)
  | Raised (e : exception).
Arguments Returned {A} a.
Arguments Raised {A} e.

(** [overall_percentage] *)
Definition overall_percentage (s : session) : Q :=
  if 0 <? max_score s
  then ((total_score s # Z.to_pos (max_score s)) * 100)%Q else 0%Q.

Definition proficiency_of (overall_percentage : Q) : string :=
  if Qle_bool 80 overall_percentage then "Advanced"
  else if Qle_bool 60 overall_percentage then "Intermediate"
  else if Qle_bool 40 overall_percentage then "Basic"
  else "Beginner".

(** The loop over [enumerate(session['responses'], 1)], from index [i] on:
    the text it appends, or [None] where [questions_asked[i-1]] is out of
    range. *)
Fixpoint performance_analysis (i : nat) (rs : list answer) (asked : list question)
    : option string :=
  match rs with
  | [] => Some ""
  | response :: rs' =>
      let eval_data := answer_evaluation response in
      match asked !! (i - 1)%nat with
      | None => None
      | Some q =>
          match performance_analysis (S i) rs' asked with
          | None => None
          | Some rest =>
              Some ("
Question " +:+ str (Z.of_nat i) +:+ ": " +:+ str (score eval_data) +:+ "/"
                +:+ str (points q) +:+ " points
- Strengths: " +:+ Text.join ", " (strengths eval_data) +:+ "
- Areas for Improvement: " +:+ Text.join ", " (improvements eval_data) +:+ "
" +:+ rest)
          end
      end
  end.

Definition commentary (proficiency : string) : string :=
  if decide (proficiency = "Advanced")
  then "Excellent technical knowledge with strong problem-solving approach."
  else if decide (proficiency = "Intermediate")
  then "Good foundational skills with room for advanced feature mastery."
  else if decide (proficiency = "Basic")
  then "Basic understanding present, would benefit from additional training."
  else "Limited Excel experience, requires comprehensive training program.".

(** [detailed_report], for the session as it is after the stamping. *)
Definition detailed_report (cfg : config) (s : session) : option string :=
  let proficiency := proficiency_of (overall_percentage s) in
  match performance_analysis 1 (responses s) (questions_asked s) with
  | None => None
  | Some analysis =>
      Some ("
EXCEL SKILLS ASSESSMENT REPORT

Candidate Performance Summary:
- Overall Score: " +:+ str (total_score s) +:+ "/" +:+ str (max_score s)
        +:+ " (" +:+ fmt_1f (overall_percentage s) +:+ "%)
- Proficiency Level: " +:+ proficiency +:+ "
- Questions Completed: " +:+ str (Z.of_nat (length (responses s))) +:+ "/"
        +:+ str (max_questions cfg) +:+ "
- Session Duration: " +:+ fmt_1f (_calculate_duration s) +:+ " minutes

Performance Analysis:
" +:+ analysis +:+ "
Overall Assessment:
The candidate demonstrates " +:+ Text.lower proficiency +:+ " Excel proficiency. "
        +:+ commentary proficiency)
  end.

(** The session once it is marked completed at time [now]. *)
Definition complete (s : session) (now : timestamp) : session :=
  {| session_id := session_id s;
     current_question := current_question s;
     total_score := total_score s;
     max_score := max_score s;
     responses := responses s;
     difficulty_level := difficulty_level s;
     questions_asked := questions_asked s;
     started_at := started_at s;
     completed_at := Some now;
     session_status := completed |}.

Definition generate_final_report (iv : interviewer) (sid : string) (now : timestamp)
    : result (option report) * interviewer :=
  match sessions iv !! sid with
  | None => (Returned None, iv)
  | Some s =>
      let s' := complete s now in
      let iv' := with_sessions iv (<[sid := s']> (sessions iv)) in
      match detailed_report (interviewer_config iv) s' with
      | None => (Raised IndexError, iv')
      | Some text =>
          (Returned (Some
             {| report_session_id := sid;
                overall_score := total_score s';
                max_possible_score := max_score s';
                percentage := overall_percentage s';
                proficiency_level := proficiency_of (overall_percentage s');
                questions_answered := Z.of_nat (length (responses s'));
                detailed_responses := responses s';
                report_text := text;
                duration_minutes := _calculate_duration s';
                recommendation := _get_hiring_recommendation (overall_percentage s') |}),
           iv')
      end
  end.

(** ** Sequences of calls *)

(** The calls the transport layer makes, with what each reads from its
    environment. *)
Inductive op :=
  | OpCreate (uuid : string) (now : timestamp)
  | OpNext (sid : string) (r : nat)
  | OpSubmit (sid response : string) (reply : option evaluation) (now : timestamp)
  | OpReport (sid : string) (now : timestamp).

(** The engine after a call; what the call returns is dropped. *)
Definition step (iv : interviewer) (o : op) : interviewer :=
  match o with
  | OpCreate uuid now => (create_session iv uuid now).2
  | OpNext sid r => (get_next_question iv sid r).2
  | OpSubmit sid response reply now => (evaluate_response iv sid response reply now).1.2
  | OpReport sid now => (generate_final_report iv sid now).2
  end.

Definition run (ops : list op) (iv : interviewer) : interviewer :=
  fold_left step ops iv.

(** [o] is a [create_session] that stores under [sid]. *)
Definition creates (sid : string) (o : op) : Prop :=
  match o with
  | OpCreate uuid _ => uuid = sid
  | _ => False
  end.

(** [sum(q['points'] for q in questions_asked)] *)
Definition sum_points (qs : list question) : Z :=
  foldr (fun q acc => points q + acc) 0 qs.

(** The word count [len(response.split())]. *)
Definition word_count (response : string) : Z :=
  Z.of_nat (length (Text.split response)).

(** What a call does to the session stored under [sid]. *)
Inductive session_change (iv : interviewer) (o : op) (sid : string)
    : option session -> Prop :=
  | change_none :
      session_change iv o sid (sessions iv !! sid)
  | change_create now :
      o = OpCreate sid now ->
      session_change iv o sid (Some (new_session sid now))
  | change_ask s level q :
      sessions iv !! sid = Some s ->
      level = difficulty_level s \/ level = adjust_difficulty s ->
      session_change iv o sid (Some (ask s level q))
  | change_answer s current response ev now :
      sessions iv !! sid = Some s ->
      session_change iv o sid (Some (record_answer s current response ev now))
  | change_complete s now :
      sessions iv !! sid = Some s ->
      session_change iv o sid (Some (complete s now)).

(** [max_score] is the sum of the points of the questions asked, and
    [current_question] is their number. *)
Definition counts_consistent (s : session) : Prop :=
  max_score s = sum_points (questions_asked s)
  /\ Z.of_nat (length (questions_asked s)) = current_question s.

(** The session stored under [sid] satisfies [P]. *)
Definition stored_with (P : session -> Prop) (sid : string) (iv : interviewer) : Prop :=
  exists s, sessions iv !! sid = Some s /\ P s.

(** The difficulty level lies between 1 and 3. *)
Definition level_in_range (s : session) : Prop := 1 <= difficulty_level s <= 3.

(** ** Concrete sessions used in the examples *)

Definition vlookup_question : question :=
  {| category := "Basic";
     difficulty := 1;
     question_text :=
       "Explain the difference between VLOOKUP and INDEX-MATCH functions.";
     ideal_answer :=
       "VLOOKUP searches vertically in first column and returns value from specified column. INDEX-MATCH is more flexible - INDEX returns value at intersection, MATCH finds position. INDEX-MATCH can look left, handles column insertions better, and is generally more robust.";
     points := 20 |}.

(** A default engine in which session ["s1"] was created at time 0 and has
    been asked its first question. *)
Definition one_question_asked : interviewer :=
  run [OpCreate "s1" 0; OpNext "s1" 0%nat] (init default_config false).

(** The same after the report was generated one minute in. *)
Definition one_question_completed : interviewer :=
  run [OpReport "s1" 60000000] one_question_asked.

Definition fifteen_words : string :=
  "I use vlookup to look up values vertically in a table and return matching data".

(** ** What a call does, in full *)

(** The session stored under [sid] after the call [o], with what the
    call established on the way. *)
Inductive session_effect (iv : interviewer) (o : op) (sid : string)
    : option session -> Prop :=
  | effect_none :
      session_effect iv o sid (sessions iv !! sid)
  | effect_create now :
      o = OpCreate sid now ->
      session_effect iv o sid (Some (new_session sid now))
  | effect_ask r s level q :
      o = OpNext sid r ->
      sessions iv !! sid = Some s ->
      session_status s = active ->
      current_question s < max_questions (interviewer_config iv) ->
      q ∈ available_questions iv s ->
      level = difficulty_level s \/ level = adjust_difficulty s ->
      session_effect iv o sid (Some (ask s level q))
  | effect_answer response reply now s current ev :
      o = OpSubmit sid response reply now ->
      sessions iv !! sid = Some s ->
      last (questions_asked s) = Some current ->
      min_response_length (interviewer_config iv) <= word_count response ->
      session_effect iv o sid (Some (record_answer s current response ev now))
  | effect_complete now s :
      o = OpReport sid now ->
      sessions iv !! sid = Some s ->
      session_effect iv o sid (Some (complete s now)).

(** [sum(r['evaluation']['score'] for r in responses)] *)
Definition sum_scores (rs : list answer) : Z :=
  foldr (fun a acc => score (answer_evaluation a) + acc) 0 rs.

(** The asked questions are distinct questions of the bank, at most
    [max_questions] of them. *)
Definition asked_well_formed (iv : interviewer) (s : session) : Prop :=
  NoDup (questions_asked s)
  /\ (forall q, q ∈ questions_asked s -> q ∈ questions iv)
  /\ Z.of_nat (length (questions_asked s)) = current_question s
  /\ current_question s <= Z.max 0 (max_questions (interviewer_config iv)).

(** The identifier a call is made for. *)
Definition target (o : op) : string :=
  match o with
  | OpCreate uuid _ => uuid
  | OpNext sid _ => sid
  | OpSubmit sid _ _ _ => sid
  | OpReport sid _ => sid
  end.

(** The topics of [technical_keywords] with a keyword in the question
    and a keyword in the response, as a comprehension. *)
Definition matching_topics (question_lower response_lower : string) : list string :=
  (filter (fun entry : string * list string =>
             any_keyword_in entry.2 question_lower = true
             /\ any_keyword_in entry.2 response_lower = true)
          technical_keywords).*1.

(** ** The routes *)

(** [s.strip()]: [s] without the whitespace at its two ends. *)
Fixpoint lstrip (s : string) : string :=
  match s with
  | EmptyString => EmptyString
  | String c s' => if Text.is_space c then lstrip s' else s
  end.

Fixpoint rstrip (s : string) : string :=
  match s with
  | EmptyString => EmptyString
  | String c s' =>
      let t := rstrip s' in
      if Text.is_space c && bool_decide (t = "") then EmptyString else String c t
  end.

Definition strip (s : string) : string := rstrip (lstrip s).

(** A JSON value as the routes look at one: they test it for truth, call
    [strip] on it and use it as a key of [sessions]. Of a number only
    whether it is zero matters to them, of an array or an object only
    whether it is empty. *)
Inductive json :=
  | JNull
  | JBool (b : bool)
  | JNumber (zero : bool)
  | JString (s : string)
  | JArray (empty : bool)
  | JObject (empty : bool).

(** The truth value of a JSON value in a condition ([not v] is its
    negation): null, false, zero, the empty string, the empty array and
    the empty object are false. *)
Definition truthy (v : json) : bool :=
  match v with
  | JNull => false
  | JBool b => b
  | JNumber zero => negb zero
  | JString s => negb (bool_decide (s = ""))
  | JArray empty => negb empty
  | JObject empty => negb empty
  end.

(** Whether a JSON value can be looked up in a dictionary: a list and a
    dictionary are not hashable. *)
Definition hashable (v : json) : bool :=
  match v with
  | JArray _ | JObject _ => false
  | _ => true
  end.

(** The JSON object posted to [submit_response] and [get_report]: the
    two keys the routes read, each absent or with its value. *)
Record request_json := RequestJson {
  json_session_id : option json;
  json_response : option json
}.

(** [data.get(key)] is [None] for an absent key and for null;
    [data.get(key, '')] is [''] for an absent key only. *)
Definition data_get (value : option json) : json := default JNull value.
Definition data_get_default (value : option json) : json := default (JString "") value.

(** What the [try] block of a route can catch: an exception of the
    engine, [AttributeError] for a method that a value does not have,
    [TypeError] for a key that is not hashable, and whatever makes
    [request.json] fail or give something that is not an object. *)
Inductive failure :=
  | EngineError (e : exception)
  | AttributeError
  | TypeError
  | BadBody.

(** What a route returns: the body with status 200, an error body
    [{'success': False, 'error': ...}] with its status, or, for a caught
    exception [e], the error body of [str(e)] with status 500. *)
Inductive http (A : Type) :=
  | Ok (body : A)
  | Err (code : Z) (error : string)
  | Failed (e : failure).
Arguments Ok {A} body.
Arguments Err {A} code error.
Arguments Failed {A} e.

Record start_body := StartBody {
  start_session_id : string;
  start_message : string;
  start_question : option question_view;
  start_groq_available : bool
}.

(** [start_interview] *)
Definition start_interview (iv : interviewer) (uuid : string) (now : timestamp) (r : nat)
    : http start_body * interviewer :=
  let '(session_id, iv1) := create_session iv uuid now in
  let '(first_question, iv2) := get_next_question iv1 session_id r in
  (Ok {| start_session_id := session_id;
         start_message :=
           "Welcome to the AI Excel Mock Interview! I will ask you "
           +:+ str (max_questions (interviewer_config iv2))
           +:+ " questions to assess your Excel skills.";
         start_question := first_question;
         start_groq_available := groq_client iv2 |},
   iv2).

Record submit_body := SubmitBody {
  submit_evaluation : evaluation;
  submit_next_question : option question_view;
  submit_final_report : option (option report);
  submit_interview_complete : bool
}.

(** [submit_response] from the evaluation on, for a session identifier
    that is a string. [now] is the clock read when the answer is stored,
    [now'] the clock read when the report is generated. *)
Definition submit_answer (iv : interviewer) (session_id response : string)
    (reply : option evaluation) (now : timestamp) (r : nat) (now' : timestamp)
    : http submit_body * interviewer :=
  let '(evaluation, iv1, _) := evaluate_response iv session_id response reply now in
  match evaluation with
  | None => (Err 400 "Invalid session", iv1)
  | Some ev =>
      let '(next_question, iv2) := get_next_question iv1 session_id r in
      match next_question with
      | Some _ =>
          (Ok {| submit_evaluation := ev;
                 submit_next_question := next_question;
                 submit_final_report := None;
                 submit_interview_complete := false |},
           iv2)
      | None =>
          match generate_final_report iv2 session_id now' with
          | (Returned rep, iv3) =>
              (Ok {| submit_evaluation := ev;
                     submit_next_question := next_question;
                     submit_final_report := Some rep;
                     submit_interview_complete := true |},
               iv3)
          | (Raised e, iv3) => (Failed (EngineError e), iv3)
          end
      end
  end.

(** [submit_response]. [body] is the JSON object of the request, [None]
    when there is none. A session identifier that is not a string is
    not a key of [sessions]: the lookup of [evaluate_response] fails for
    a list or a dictionary and finds nothing otherwise. *)
Definition submit_response (iv : interviewer) (body : option request_json)
    (reply : option evaluation) (now : timestamp) (r : nat) (now' : timestamp)
    : http submit_body * interviewer :=
  match body with
  | None => (Failed BadBody, iv)
  | Some data =>
      let session_id := data_get (json_session_id data) in
      match data_get_default (json_response data) with
      | JString text =>
          let response := strip text in
          if decide (truthy session_id = false \/ response = "") then
            (Err 400 "Session ID and response required", iv)
          else
            match session_id with
            | JString session_id => submit_answer iv session_id response reply now r now'
            | JArray _ | JObject _ => (Failed TypeError, iv)
            | _ => (Err 400 "Invalid session", iv)
            end
      | _ => (Failed AttributeError, iv)
      end
  end.

(** [get_report] *)
Definition get_report (iv : interviewer) (body : option request_json) (now : timestamp)
    : http report * interviewer :=
  match body with
  | None => (Failed BadBody, iv)
  | Some data =>
      let session_id := data_get (json_session_id data) in
      if decide (truthy session_id = false) then (Err 400 "Session ID required", iv)
      else
        match session_id with
        | JString session_id =>
            match generate_final_report iv session_id now with
            | (Returned None, iv1) => (Err 404 "Session not found or not complete", iv1)
            | (Returned (Some rep), iv1) => (Ok rep, iv1)
            | (Raised e, iv1) => (Failed (EngineError e), iv1)
            end
        | JArray _ | JObject _ => (Failed TypeError, iv)
        | _ => (Err 404 "Session not found or not complete", iv)
        end
  end.

Record health_body := HealthBody {
  health_message : string;
  health_total_questions : nat;
  health_active_sessions : nat;
  health_groq_available : bool;
  health_version : string
}.

(** [len([s for s in sessions.values() if s['status'] == 'active'])] *)
Definition count_active (sessions : gmap string session) : nat :=
  length (filter (fun s => session_status s = active) (map_to_list sessions).*2).

(** [health_check]: the route has no error reply. *)
Definition health_check (iv : interviewer) : health_body :=
  {| health_message := "Excel Mock Interviewer API is running";
     health_total_questions := length (questions iv);
     health_active_sessions := count_active (sessions iv);
     health_groq_available := groq_client iv;
     health_version := "2.1.1" |}.

(** The requests a client makes, with what serving each reads from its
    environment. *)
Inductive request :=
  | ReqStart (uuid : string) (now : timestamp) (r : nat)
  | ReqSubmit (body : option request_json) (reply : option evaluation)
      (now : timestamp) (r : nat) (now' : timestamp)
  | ReqReport (body : option request_json) (now : timestamp).

(** The engine after a request is served. *)
Definition serve (iv : interviewer) (req : request) : interviewer :=
  match req with
  | ReqStart uuid now r => (start_interview iv uuid now r).2
  | ReqSubmit body reply now r now' => (submit_response iv body reply now r now').2
  | ReqReport body now => (get_report iv body now).2
  end.

Definition serve_all (reqs : list request) (iv : interviewer) : interviewer :=
  fold_left serve reqs iv.

(** The status of a reply. *)
Definition status_code {A} (reply : http A) : Z :=
  match reply with
  | Ok _ => 200
  | Err code _ => code
  | Failed _ => 500
  end.

(** The request of a client that posts the two keys as strings. *)
Definition post (session_id response : string) : option request_json :=
  Some {| json_session_id := Some (JString session_id);
          json_response := Some (JString response) |}.

(** While a session is active it has an asked question that is not
    answered yet, or neither a question nor an answer; nothing is asked
    of a completed session. *)
Definition answers_in_step (s : session) : Prop :=
  match session_status s with
  | active =>
      (length (responses s) < length (questions_asked s))%nat
      \/ (responses s = [] /\ questions_asked s = [])
  | completed => True
  end.

(** Every stored session satisfies [answers_in_step]. *)
Definition all_in_step (iv : interviewer) : Prop :=
  map_Forall (fun _ s => answers_in_step s) (sessions iv).

(** ** [config.py] *)

Module ConfigPy.

(** [Config.SCORING_WEIGHTS] *)
Record scoring_weights := ScoringWeights {
  technical_accuracy : Z;
  methodology : Z;
  clarity : Z;
  best_practices : Z
}.

(** [Config.PROFICIENCY_THRESHOLDS] *)
Record proficiency_thresholds := ProficiencyThresholds {
  advanced : Z;
  intermediate : Z;
  basic : Z
}.

(** The attributes of a configuration class that [validate_config],
    [get_config_summary] and the subclasses read or override, with the
    values they have once the environment was read. [DEBUG] and
    [TESTING] are not attributes of the base class. *)
Record Config := MakeConfig {
  GROQ_API_KEY : option string;
  MAX_QUESTIONS : Z;
  SESSION_TIMEOUT : Z;
  MIN_RESPONSE_LENGTH : Z;
  GROQ_MODEL : string;
  SCORING_WEIGHTS : scoring_weights;
  PROFICIENCY_THRESHOLDS : proficiency_thresholds;
  RATE_LIMIT_PER_MINUTE : Z;
  LOG_LEVEL : string;
  DEBUG : option bool;
  TESTING : option bool
}.

(** [sum(cls.SCORING_WEIGHTS.values())] *)
Definition total_weight (w : scoring_weights) : Z :=
  technical_accuracy w + methodology w + clarity w + best_practices w.

(** [Config.validate_config] *)
Definition validate_config (cls : Config) : list string :=
  let errors := [] in
  let errors :=
    if decide (default "" (GROQ_API_KEY cls) = "")
    then errors ++ ["GROQ_API_KEY is required"] else errors in
  let total_weight := total_weight (SCORING_WEIGHTS cls) in
  let errors :=
    if decide (total_weight <> 100)
    then errors ++ ["Scoring weights must sum to 100, current sum: " +:+ str total_weight]
    else errors in
  let thresholds := PROFICIENCY_THRESHOLDS cls in
  let errors :=
    if decide (~ (basic thresholds < intermediate thresholds
                  /\ intermediate thresholds < advanced thresholds))
    then errors ++ ["Proficiency thresholds must be in ascending order"] else errors in
  let errors :=
    if decide (MAX_QUESTIONS cls <= 0)
    then errors ++ ["MAX_QUESTIONS must be positive"] else errors in
  let errors :=
    if decide (MIN_RESPONSE_LENGTH cls <= 0)
    then errors ++ ["MIN_RESPONSE_LENGTH must be positive"] else errors in
  errors.

(** The configuration classes of [config_map]. *)
Inductive config_class := DevelopmentConfig | ProductionConfig | TestingConfig.

(** [config_map.get(config_name, config_map['default'])] *)
Definition config_map_get (config_name : string) : config_class :=
  if decide (config_name = "development") then DevelopmentConfig
  else if decide (config_name = "production") then ProductionConfig
  else if decide (config_name = "testing") then TestingConfig
  else if decide (config_name = "default") then DevelopmentConfig
  else DevelopmentConfig.

(** [get_config]. [flask_env] is [os.getenv('FLASK_ENV')]. *)
Definition get_config (config_name : option string) (flask_env : option string)
    : config_class :=
  let config_name :=
    match config_name with
    | None => default "development" flask_env
    | Some name => name
    end in
  config_map_get config_name.

(** The attributes of a class, given those of the base class [Config].
    [timeout] and [rate] are what [ProductionConfig] reads from the
    environment for its two overrides. *)
Definition attributes (cls : config_class) (base : Config) (timeout rate : Z) : Config :=
  match cls with
  | DevelopmentConfig =>
      {| GROQ_API_KEY := GROQ_API_KEY base;
         MAX_QUESTIONS := MAX_QUESTIONS base;
         SESSION_TIMEOUT := SESSION_TIMEOUT base;
         MIN_RESPONSE_LENGTH := MIN_RESPONSE_LENGTH base;
         GROQ_MODEL := GROQ_MODEL base;
         SCORING_WEIGHTS := SCORING_WEIGHTS base;
         PROFICIENCY_THRESHOLDS := PROFICIENCY_THRESHOLDS base;
         RATE_LIMIT_PER_MINUTE := RATE_LIMIT_PER_MINUTE base;
         LOG_LEVEL := "DEBUG";
         DEBUG := Some true;
         TESTING := TESTING base |}
  | ProductionConfig =>
      {| GROQ_API_KEY := GROQ_API_KEY base;
         MAX_QUESTIONS := MAX_QUESTIONS base;
         SESSION_TIMEOUT := timeout;
         MIN_RESPONSE_LENGTH := MIN_RESPONSE_LENGTH base;
         GROQ_MODEL := GROQ_MODEL base;
         SCORING_WEIGHTS := SCORING_WEIGHTS base;
         PROFICIENCY_THRESHOLDS := PROFICIENCY_THRESHOLDS base;
         RATE_LIMIT_PER_MINUTE := rate;
         LOG_LEVEL := "INFO";
         DEBUG := Some false;
         TESTING := TESTING base |}
  | TestingConfig =>
      {| GROQ_API_KEY := GROQ_API_KEY base;
         MAX_QUESTIONS := 3;
         SESSION_TIMEOUT := 5;
         MIN_RESPONSE_LENGTH := 1;
         GROQ_MODEL := GROQ_MODEL base;
         SCORING_WEIGHTS := SCORING_WEIGHTS base;
         PROFICIENCY_THRESHOLDS := PROFICIENCY_THRESHOLDS base;
         RATE_LIMIT_PER_MINUTE := RATE_LIMIT_PER_MINUTE base;
         LOG_LEVEL := LOG_LEVEL base;
         DEBUG := Some true;
         TESTING := Some true |}
  end.

(** [Config] with the defaults of the environment variables and the
    given API key. *)
Definition default_Config (key : option string) : Config :=
  {| GROQ_API_KEY := key;
     MAX_QUESTIONS := 5;
     SESSION_TIMEOUT := 30;
     MIN_RESPONSE_LENGTH := 5;
     GROQ_MODEL := "llama-3.3-70b-versatile";
     SCORING_WEIGHTS :=
       {| technical_accuracy := 40; methodology := 30; clarity := 20; best_practices := 10 |};
     PROFICIENCY_THRESHOLDS := {| advanced := 80; intermediate := 60; basic := 40 |};
     RATE_LIMIT_PER_MINUTE := 30;
     LOG_LEVEL := "INFO";
     DEBUG := None;
     TESTING := None |}.

End ConfigPy.

(** * Properties *)

(** ** The fallback evaluator *)

Section Fallback.

Variables question_lower response_lower : string.

Lemma keyword_step_bonus acc entry :
  acc.1 <= (keyword_step question_lower response_lower acc entry).1.
Proof.
  destruct acc as [bonus found], entry as [topic keywords]; simpl.
  repeat case_match; simpl; lia.
Qed.

Lemma keyword_fold_bonus entries acc :
  acc.1 <= (fold_left (keyword_step question_lower response_lower) entries acc).1.
Proof.
  revert acc; induction entries as [|entry entries IH]; intros acc; simpl.
  - lia.
  - etransitivity; [apply keyword_step_bonus | apply IH].
Qed.

Lemma keyword_scan_bonus : 0 <= (keyword_scan question_lower response_lower).1.
Proof. apply (keyword_fold_bonus technical_keywords (0, [])). Qed.

End Fallback.

(** The score of the fallback evaluator is its [final_score]. *)
Lemma fallback_score response q :
  score (evaluate_response_fallback response q) =
  Z.min (points q)
    (Z.min (points q) (Z.max 1 (word_count response / 5))
     + (keyword_scan (Text.lower (question_text q)) (Text.lower response)).1).
Proof.
  unfold evaluate_response_fallback, word_count.
  destruct (keyword_scan _ _) as [bonus found]; simpl.
  repeat case_match; reflexivity.
Qed.

(** C9. For a question worth a positive number of points, the fallback
    evaluator scores every response between 0 and the points of the
    question. *)
Theorem fallback_score_bounds response q :
  0 < points q ->
  0 <= score (evaluate_response_fallback response q) <= points q.
Proof.
  intros Hpos. rewrite fallback_score.
  pose proof (keyword_scan_bonus (Text.lower (question_text q)) (Text.lower response)).
  lia.
Qed.

Lemma fallback_score_bounds_witness :
  0 <= score (evaluate_response_fallback fifteen_words vlookup_question) <= 20.
Proof. apply (fallback_score_bounds fifteen_words vlookup_question). reflexivity. Defined.

(** C10, as amended. For a question worth a positive number of points
    the fallback evaluator gives at least its base score
    [min(points, max(1, words // 5))], which is at least 1, so it never
    gives 0. An evaluation with score 0 that [evaluate_response] returns
    for such a question is therefore the one for a response below the
    minimum word count, or else the reply of the remote evaluator, which
    is passed on as it is. *)
Theorem fallback_score_positive response q :
  0 < points q ->
  Z.min (points q) (Z.max 1 (word_count response / 5))
    <= score (evaluate_response_fallback response q)
  /\ 1 <= score (evaluate_response_fallback response q)
  /\ forall iv sid reply now s ev,
       sessions iv !! sid = Some s ->
       last (questions_asked s) = Some q ->
       (evaluate_response iv sid response reply now).1.1 = Some ev ->
       score ev = 0 ->
       (word_count response < min_response_length (interviewer_config iv)
        /\ ev = too_short (interviewer_config iv))
       \/ (groq_client iv = true /\ reply = Some ev).
Proof.
  intros Hpos.
  pose proof (keyword_scan_bonus (Text.lower (question_text q)) (Text.lower response)) as Hb.
  pose proof (fallback_score response q) as Hs.
  split; [lia|]. split; [lia|].
  intros iv sid reply now s ev Hs1 Hlast Hev Hzero.
  unfold evaluate_response in Hev. rewrite Hs1, Hlast in Hev.
  fold (word_count response) in Hev.
  destruct (Z.ltb_spec (word_count response) (min_response_length (interviewer_config iv)))
    as [Hshort|Hlong].
  - left. simpl in Hev. split; [assumption | congruence].
  - unfold evaluate_response_with_groq in Hev.
    destruct (groq_client iv) eqn:Hclient; [destruct reply as [ev'|]|]; simpl in Hev;
      injection Hev as <-.
    + right. split; reflexivity.
    + lia.
    + lia.
Qed.

Lemma fallback_score_positive_witness :
  1 <= score (evaluate_response_fallback "" vlookup_question)
  /\ (word_count "" < 5 /\ too_short default_config = too_short default_config
      \/ false = true /\ None = Some (too_short default_config)).
Proof.
  destruct (fallback_score_positive "" vlookup_question) as (_ & Hone & Hzero);
    [reflexivity|].
  split; [exact Hone|].
  apply (Hzero one_question_asked "s1" None 1000
           {| session_id := "s1"; current_question := 1; total_score := 0;
              max_score := 20; responses := []; difficulty_level := 1;
              questions_asked := [vlookup_question]; started_at := 0;
              completed_at := None; session_status := active |});
    vm_compute; reflexivity.
Defined.

(** C10, as stated, fails: the question is worth 20 points, the response
    has fifteen words, which is not below the minimum of 5, the engine has
    a client, the remote evaluator replies with the score 0, and
    [evaluate_response] returns that reply. *)
Lemma remote_reply_scores_zero :
  let iv := run [OpCreate "s1" 0; OpNext "s1" 0%nat] (init default_config true) in
  let reply := {| score := 0;
                  feedback := "The answer does not address the question.";
                  strengths := [];
                  improvements := ["Compare the two functions"] |} in
  (last <$> (questions_asked <$> sessions iv !! "s1")) = Some (Some vlookup_question)
  /\ 0 < points vlookup_question
  /\ word_count fifteen_words = 15
  /\ min_response_length (interviewer_config iv) = 5
  /\ (evaluate_response iv "s1" fifteen_words (Some reply) 1000).1.1 = Some reply
  /\ score reply = 0
  /\ reply <> too_short (interviewer_config iv).
Proof.
  cbv zeta. repeat split; try (vm_compute; reflexivity).
  intros H. discriminate H.
Qed.

(** ** [evaluate_response] *)

Lemma evaluate_response_unknown iv sid response reply now :
  sessions iv !! sid = None ->
  evaluate_response iv sid response reply now = (None, iv, []).
Proof. intros H. unfold evaluate_response. rewrite H. reflexivity. Qed.

Lemma evaluate_response_no_question iv sid response reply now s :
  sessions iv !! sid = Some s -> questions_asked s = [] ->
  evaluate_response iv sid response reply now = (None, iv, []).
Proof. intros H Hnil. unfold evaluate_response. rewrite H, Hnil. reflexivity. Qed.

(** C1, as amended. For an active session with a question asked, a
    response of fewer words than the configured minimum gets a zero-score
    evaluation at once and neither evaluator is invoked; the cumulative
    score of the session afterwards is its previous value plus that
    score, 0. *)
Theorem evaluate_response_too_short iv sid response reply now s :
  sessions iv !! sid = Some s ->
  session_status s = active ->
  questions_asked s <> [] ->
  word_count response < min_response_length (interviewer_config iv) ->
  let '(returned, iv', calls) := evaluate_response iv sid response reply now in
  exists ev s',
    returned = Some ev
    /\ score ev = 0
    /\ calls = []
    /\ sessions iv' !! sid = Some s'
    /\ total_score s' = total_score s + score ev.
Proof.
  intros Hs _ Hasked Hshort. unfold evaluate_response. rewrite Hs.
  destruct (last (questions_asked s)) as [current|] eqn:Hlast.
  - fold (word_count response).
    destruct (Z.ltb_spec (word_count response) (min_response_length (interviewer_config iv)));
      [|lia].
    exists (too_short (interviewer_config iv)), s. simpl.
    repeat split; [assumption | lia].
  - apply last_None in Hlast. contradiction.
Qed.

Lemma evaluate_response_too_short_witness :
  exists ev,
    (evaluate_response one_question_asked "s1" "too short" None 1000).1.1 = Some ev
    /\ score ev = 0
    /\ (evaluate_response one_question_asked "s1" "too short" None 1000).2 = [].
Proof.
  pose proof (evaluate_response_too_short one_question_asked "s1" "too short" None 1000
    {| session_id := "s1"; current_question := 1; total_score := 0;
       max_score := 20; responses := []; difficulty_level := 1;
       questions_asked := [vlookup_question]; started_at := 0;
       completed_at := None; session_status := active |}) as H.
  destruct (evaluate_response one_question_asked "s1" "too short" None 1000)
    as [[returned iv'] calls].
  destruct H as (ev & s' & -> & Hzero & -> & _);
    [vm_compute; reflexivity | reflexivity | discriminate | reflexivity |].
  exists ev. repeat split. exact Hzero.
Defined.

(** C1, as stated, fails: the session is active and has a question, the
    response has two words, the zero-score evaluation is returned, and the
    answer history is still empty afterwards. *)
Lemma evaluate_response_too_short_not_recorded :
  exists s s',
    sessions one_question_asked !! "s1" = Some s
    /\ session_status s = active
    /\ questions_asked s = [vlookup_question]
    /\ word_count "too short" < min_response_length (interviewer_config one_question_asked)
    /\ (evaluate_response one_question_asked "s1" "too short" None 1000).1.1
       = Some (too_short default_config)
    /\ sessions (evaluate_response one_question_asked "s1" "too short" None 1000).1.2 !! "s1"
       = Some s'
    /\ responses s' = []
    /\ ~ (exists a, responses s' = responses s ++ [a]).
Proof.
  eexists _, _. repeat split; try (vm_compute; reflexivity).
  intros [a Ha]. vm_compute in Ha. discriminate Ha.
Qed.

(** ** [get_next_question] *)

Lemma random_choice_elem {A} (r : nat) (seq : list A) x :
  random_choice r seq = Some x -> x ∈ seq.
Proof. unfold random_choice. intros H. apply list_elem_of_lookup. eauto. Qed.

(** On a sequence that is not empty [random.choice] returns. *)
Lemma random_choice_is_Some {A} (r : nat) (seq : list A) :
  seq <> [] -> is_Some (random_choice r seq).
Proof.
  intros Hne. unfold random_choice. apply lookup_lt_is_Some.
  apply Nat.mod_upper_bound. destruct seq; [contradiction | discriminate].
Qed.

Lemma select_question_available s r first available :
  first ∈ available -> (select_question s r first available).2 ∈ available.
Proof.
  intros Hfirst. unfold select_question.
  destruct (current_question s =? 0); simpl.
  - destruct (head _) as [q|] eqn:Hhead; simpl; [|assumption].
    apply head_Some_elem_of in Hhead. apply list_elem_of_filter in Hhead. tauto.
  - destruct (filter _ available) as [|q0 suitable] eqn:Hsuitable.
    + destruct (random_choice r available) as [q|] eqn:Hq; simpl; [|assumption].
      eapply random_choice_elem; eassumption.
    + destruct (random_choice r (q0 :: suitable)) as [q|] eqn:Hq; simpl; [|assumption].
      apply random_choice_elem in Hq. rewrite <- Hsuitable in Hq.
      apply list_elem_of_filter in Hq. tauto.
Qed.

Lemma select_question_level s r first available :
  (select_question s r first available).1 = difficulty_level s
  \/ (select_question s r first available).1 = adjust_difficulty s.
Proof. unfold select_question. destruct (current_question s =? 0); simpl; tauto. Qed.

Lemma adjust_difficulty_bounds s :
  1 <= difficulty_level s <= 3 ->
  difficulty_level s <= adjust_difficulty s <= 3.
Proof. intros H. unfold adjust_difficulty. repeat case_match; lia. Qed.

Lemma elem_of_available_questions iv s q :
  q ∈ available_questions iv s <->
  q ∈ questions iv /\ difficulty q <= difficulty_level s + 1 /\ q ∉ questions_asked s.
Proof. unfold available_questions. rewrite list_elem_of_filter. tauto. Qed.

(** The two ways a call of [get_next_question] ends. *)
Lemma get_next_question_cases iv sid r :
  get_next_question iv sid r = (None, iv)
  \/ exists s first rest,
       sessions iv !! sid = Some s
       /\ session_status s = active
       /\ available_questions iv s = first :: rest
       /\ current_question s < max_questions (interviewer_config iv)
       /\ let choice := select_question s r first (first :: rest) in
          let s' := ask s choice.1 choice.2 in
          get_next_question iv sid r =
            (Some (view_of (interviewer_config iv) s' choice.2),
             with_sessions iv (<[sid := s']> (sessions iv))).
Proof.
  unfold get_next_question.
  destruct (sessions iv !! sid) as [s|] eqn:Hs; [|left; reflexivity].
  destruct (decide (session_status s <> active)) as [|Hactive]; [left; reflexivity|].
  destruct (available_questions iv s) as [|first rest] eqn:Havail; [left; reflexivity|].
  destruct (Z.leb_spec (max_questions (interviewer_config iv)) (current_question s));
    [left; reflexivity|].
  right. exists s, first, rest.
  destruct (select_question s r first (first :: rest)) as [level q]; simpl.
  repeat split; try assumption.
  destruct (session_status s); [reflexivity | exfalso; apply Hactive; discriminate].
Qed.

(** C6. For a stored active session [get_next_question] returns [None]
    exactly when [current_question] has reached [max_questions] or the
    bank has no question of difficulty at most the current level plus one
    that is not in [questions_asked]. *)
Theorem get_next_question_None_iff iv sid r s :
  sessions iv !! sid = Some s ->
  session_status s = active ->
  (get_next_question iv sid r).1 = None <->
  max_questions (interviewer_config iv) <= current_question s
  \/ ~ (exists q, q ∈ questions iv
                  /\ difficulty q <= difficulty_level s + 1
                  /\ q ∉ questions_asked s).
Proof.
  intros Hs Hactive. split.
  - intros Hnone.
    destruct (get_next_question_cases iv sid r)
      as [Hcase | (s0 & first & rest & Hs0 & _ & Havail & Hlt & Hcase)].
    + unfold get_next_question in Hcase. rewrite Hs in Hcase.
      destruct (decide (session_status s <> active)) as [Hne|_]; [congruence|].
      destruct (available_questions iv s) as [|first rest] eqn:Havail.
      * right. intros (q & Hq). apply elem_of_available_questions in Hq.
        rewrite Havail in Hq. by apply not_elem_of_nil in Hq.
      * destruct (Z.leb_spec (max_questions (interviewer_config iv)) (current_question s));
          [left; assumption|].
        destruct (select_question _ _ _ _); discriminate Hcase.
    + simpl in Hcase. rewrite Hcase in Hnone. discriminate Hnone.
  - intros Hcond. unfold get_next_question. rewrite Hs.
    destruct (decide (session_status s <> active)); [reflexivity|].
    destruct (available_questions iv s) as [|first rest] eqn:Havail; [reflexivity|].
    destruct (Z.leb_spec (max_questions (interviewer_config iv)) (current_question s));
      [reflexivity|].
    destruct Hcond as [Hmax | Hnone]; [lia|].
    exfalso. apply Hnone. exists first. apply elem_of_available_questions.
    rewrite Havail. left.
Qed.

Lemma get_next_question_None_iff_witness :
  (get_next_question one_question_asked "s1" 3).1 = None <->
  5 <= 1
  \/ ~ (exists q, q ∈ load_questions /\ difficulty q <= 1 + 1 /\ q ∉ [vlookup_question]).
Proof.
  apply (get_next_question_None_iff one_question_asked "s1" 3
    {| session_id := "s1"; current_question := 1; total_score := 0;
       max_score := 20; responses := []; difficulty_level := 1;
       questions_asked := [vlookup_question]; started_at := 0;
       completed_at := None; session_status := active |});
    vm_compute; reflexivity.
Defined.

(** C7. A question that [get_next_question] returns is a question of the
    bank that is not in [questions_asked] at the time of the call; the
    call appends it there, so a list of asked questions without
    repetition stays without repetition. *)
Theorem get_next_question_not_asked iv sid r s v iv' :
  sessions iv !! sid = Some s ->
  get_next_question iv sid r = (Some v, iv') ->
  exists q s',
    q ∈ questions iv
    /\ (q ∉ questions_asked s)
    /\ view_question v = question_text q
    /\ view_category v = category q
    /\ view_difficulty v = difficulty q
    /\ sessions iv' !! sid = Some s'
    /\ questions_asked s' = questions_asked s ++ [q]
    /\ (NoDup (questions_asked s) -> NoDup (questions_asked s')).
Proof.
  intros Hs Hcall.
  destruct (get_next_question_cases iv sid r)
    as [Hcase | (s0 & first & rest & Hs0 & _ & Havail & _ & Hcase)];
    [congruence|].
  simpl in Hcase. rewrite Hcase in Hcall. injection Hcall as <- <-.
  assert (s0 = s) as -> by congruence.
  pose proof (select_question_available s r first (first :: rest)) as Hq.
  destruct (select_question s r first (first :: rest)) as [level q]; simpl in *.
  specialize (Hq ltac:(left)). rewrite <- Havail in Hq.
  apply elem_of_available_questions in Hq as (Hbank & _ & Hfresh).
  exists q, (ask s level q). simpl.
  repeat split; try assumption; try reflexivity.
  - apply lookup_insert_eq.
  - intros Hnodup. apply NoDup_app. repeat split.
    + assumption.
    + intros x Hx Hx'. apply list_elem_of_singleton in Hx'. congruence.
    + apply NoDup_singleton.
Qed.

Lemma get_next_question_not_asked_witness :
  exists q s',
    q ∈ load_questions
    /\ (q ∉ [vlookup_question])
    /\ sessions (get_next_question one_question_asked "s1" 3).2 !! "s1" = Some s'
    /\ questions_asked s' = [vlookup_question] ++ [q].
Proof.
  destruct (get_next_question one_question_asked "s1" 3) as [[v|] iv'] eqn:Hcall;
    [|vm_compute in Hcall; discriminate Hcall].
  destruct (get_next_question_not_asked one_question_asked "s1" 3
    {| session_id := "s1"; current_question := 1; total_score := 0;
       max_score := 20; responses := []; difficulty_level := 1;
       questions_asked := [vlookup_question]; started_at := 0;
       completed_at := None; session_status := active |} v iv')
    as (q & s' & Hbank & Hfresh & _ & _ & _ & Hs' & Hasked & _);
    [vm_compute; reflexivity | exact Hcall |].
  exists q, s'. simpl. repeat split; assumption.
Defined.

(** The first question: the first available question of difficulty 1, and
    the first available question if there is none. *)
Lemma head_filter_split {A} (P : A -> Prop) `{!forall x, Decision (P x)} (l : list A) q :
  head (filter P l) = Some q ->
  exists l1 l2, l = l1 ++ q :: l2 /\ Forall (fun x => ~ P x) l1 /\ P q.
Proof.
  induction l as [|x l IH]; [discriminate|].
  rewrite filter_cons. destruct (decide (P x)) as [HP|HP]; simpl.
  - intros [= ->]. exists [], l. repeat split; [constructor | assumption].
  - intros Hhead. destruct (IH Hhead) as (l1 & l2 & -> & Hl1 & Hq).
    exists (x :: l1), l2. repeat split; [constructor|]; assumption.
Qed.

Lemma head_filter_None {A} (P : A -> Prop) `{!forall x, Decision (P x)} (l : list A) :
  head (filter P l) = None -> Forall (fun x => ~ P x) l.
Proof.
  intros Hhead. apply Forall_forall. intros x Hx HP.
  assert (x ∈ filter P l) as Hin by (apply list_elem_of_filter; tauto).
  destruct (filter P l); [by apply not_elem_of_nil in Hin | discriminate].
Qed.

Lemma select_question_first s r first rest :
  current_question s = 0 ->
  let q := (select_question s r first (first :: rest)).2 in
  (select_question s r first (first :: rest)).1 = difficulty_level s
  /\ ((difficulty q = 1
       /\ exists l1 l2, first :: rest = l1 ++ q :: l2
                        /\ Forall (fun x => difficulty x <> 1) l1)
      \/ (q = first /\ Forall (fun x => difficulty x <> 1) (first :: rest))).
Proof.
  intros Hzero. unfold select_question. rewrite Hzero. simpl.
  split; [reflexivity|].
  destruct (head (filter _ (first :: rest))) as [q|] eqn:Hhead; simpl.
  - left. apply head_filter_split in Hhead as (l1 & l2 & Heq & Hl1 & Hq). eauto.
  - right. split; [reflexivity|]. by apply head_filter_None in Hhead.
Qed.

Lemma available_questions_fresh iv uuid now :
  available_questions iv (new_session uuid now)
  = filter (fun q => difficulty q <= 2) (questions iv).
Proof.
  unfold available_questions. simpl.
  induction (questions iv) as [|q l IH]; [reflexivity|].
  rewrite !filter_cons, IH.
  destruct (decide (difficulty q <= 1 + 1 /\ (q ∉ []))) as [[Hle _]|Hno];
    destruct (decide (difficulty q <= 2)) as [Hle'|Hgt];
    try reflexivity; try lia.
  exfalso. apply Hno. split; [lia | apply not_elem_of_nil].
Qed.

Lemma filter_tier1_candidates (l : list question) :
  filter (fun q => difficulty q = 1) (filter (fun q => difficulty q <= 2) l)
  = filter (fun q => difficulty q = 1) l.
Proof.
  induction l as [|q l IH]; [reflexivity|].
  rewrite !filter_cons.
  destruct (decide (difficulty q <= 2)) as [Hle|Hgt];
    [rewrite filter_cons|];
    destruct (decide (difficulty q = 1)) as [Hone|Hother];
    rewrite ?IH; try reflexivity; lia.
Qed.

(** C8, as amended. In an engine whose [max_questions] is positive, the
    first [get_next_question] of a session that was just created returns,
    whatever the random draw, the first question of difficulty 1 of the
    bank; if the bank has none, the first question of difficulty at most 2
    in bank order; and no question if there is none of these either. On
    the loaded bank the first question of difficulty 1 is the 20-point
    question on VLOOKUP and INDEX-MATCH. *)
Theorem first_question_rule iv uuid now r :
  0 < max_questions (interviewer_config iv) ->
  let iv1 := (create_session iv uuid now).2 in
  let tier1 := filter (fun q => difficulty q = 1) (questions iv) in
  let candidates := filter (fun q => difficulty q <= 2) (questions iv) in
  get_next_question iv1 uuid r =
    match (match head tier1 with Some q => Some q | None => head candidates end) with
    | Some q =>
        (Some {| question_number := 1;
                 view_question := question_text q;
                 view_category := category q;
                 view_difficulty := difficulty q;
                 total_questions := max_questions (interviewer_config iv) |},
         with_sessions iv1 (<[uuid := ask (new_session uuid now) 1 q]> (sessions iv1)))
    | None => (None, iv1)
    end
  /\ (questions iv = load_questions -> head tier1 = Some vlookup_question)
  /\ question_text vlookup_question
     = "Explain the difference between VLOOKUP and INDEX-MATCH functions."
  /\ points vlookup_question = 20.
Proof.
  intros Hmax. cbv zeta. split; [|split; [intros ->; reflexivity | split; reflexivity]].
  unfold get_next_question. simpl. rewrite lookup_insert_eq. simpl.
  change (available_questions _ (new_session uuid now))
    with (available_questions iv (new_session uuid now)).
  rewrite available_questions_fresh.
  rewrite <- (filter_tier1_candidates (questions iv)).
  destruct (filter (fun q => difficulty q <= 2) (questions iv)) as [|first rest];
    [reflexivity|].
  destruct (Z.leb_spec (max_questions (interviewer_config iv)) 0); [lia|].
  unfold select_question. simpl.
  destruct (head (filter (fun q => difficulty q = 1) (first :: rest))) as [q|];
    reflexivity.
Qed.

Lemma first_question_rule_witness :
  (get_next_question (create_session (init default_config false) "s1" 0).2 "s1" 42).1 =
    Some {| question_number := 1;
            view_question :=
              "Explain the difference between VLOOKUP and INDEX-MATCH functions.";
            view_category := "Basic";
            view_difficulty := 1;
            total_questions := 5 |}.
Proof.
  destruct (first_question_rule (init default_config false) "s1" 0 42) as [H _];
    [reflexivity|].
  cbv zeta in H. rewrite H. reflexivity.
Defined.

(** C8, as stated, fails: with [MAX_QUESTIONS=0] in the environment the
    session that was just created is at ordinal 0, with an empty history
    and at level 1, the bank is the loaded bank, and its first
    [get_next_question] returns no question. *)
Lemma first_question_needs_positive_limit :
  let iv := init {| max_questions := 0; min_response_length := 5 |} false in
  let iv1 := (create_session iv "s1" 0).2 in
  questions iv1 = load_questions
  /\ sessions iv1 !! "s1" = Some (new_session "s1" 0)
  /\ current_question (new_session "s1" 0) = 0
  /\ responses (new_session "s1" 0) = []
  /\ questions_asked (new_session "s1" 0) = []
  /\ difficulty_level (new_session "s1" 0) = 1
  /\ get_next_question iv1 "s1" 42 = (None, iv1).
Proof. cbv zeta. repeat split; vm_compute; reflexivity. Qed.

(** The preference, on a bank that opens with a harder question: the
    question of difficulty 1 is taken, not the first candidate. *)
Example first_question_prefers_tier1 :
  let hard := {| category := "Intermediate"; difficulty := 2;
                 question_text := "Explain conditional formatting.";
                 ideal_answer := "Formatting by rule."; points := 20 |} in
  let iv := {| interviewer_config := default_config; groq_client := false;
               sessions := ∅; questions := [hard; vlookup_question] |} in
  (view_question <$> (get_next_question (create_session iv "s1" 0).2 "s1" 42).1)
  = Some (question_text vlookup_question).
Proof. vm_compute. reflexivity. Qed.

(** ** Sequences of calls *)

Lemma step_session_change iv o sid :
  session_change iv o sid (sessions (step iv o) !! sid).
Proof.
  destruct o as [uuid now | sid' r | sid' response reply now | sid' now]; simpl.
  - destruct (decide (uuid = sid)) as [->|Hne].
    + rewrite lookup_insert_eq. by constructor.
    + rewrite lookup_insert_ne by assumption. constructor.
  - destruct (get_next_question_cases iv sid' r)
      as [-> | (s & first & rest & Hs & _ & _ & _ & Hcase)]; [constructor|].
    simpl in Hcase. rewrite Hcase. simpl.
    destruct (decide (sid' = sid)) as [->|Hne].
    + rewrite lookup_insert_eq. constructor; [assumption|].
      apply select_question_level.
    + rewrite lookup_insert_ne by assumption. constructor.
  - unfold evaluate_response.
    destruct (sessions iv !! sid') as [s|] eqn:Hs; [|constructor].
    destruct (last (questions_asked s)) as [current|]; [|constructor].
    destruct (_ <? _); [constructor|].
    destruct (groq_client iv); simpl.
    + destruct (evaluate_response_with_groq iv reply); simpl;
        (destruct (decide (sid' = sid)) as [->|Hne];
         [rewrite lookup_insert_eq; by constructor
         |rewrite lookup_insert_ne by assumption; constructor]).
    + destruct (decide (sid' = sid)) as [->|Hne];
        [rewrite lookup_insert_eq; by constructor
        |rewrite lookup_insert_ne by assumption; constructor].
  - unfold generate_final_report.
    destruct (sessions iv !! sid') as [s|] eqn:Hs; [|constructor].
    destruct (detailed_report _ _); simpl;
      (destruct (decide (sid' = sid)) as [->|Hne];
       [rewrite lookup_insert_eq; by constructor
       |rewrite lookup_insert_ne by assumption; constructor]).
Qed.


Lemma sum_points_app qs q : sum_points (qs ++ [q]) = sum_points qs + points q.
Proof. induction qs as [|q' qs IH]; simpl; [|rewrite IH]; lia. Qed.

Lemma ask_counts_consistent s level q :
  counts_consistent s -> counts_consistent (ask s level q).
Proof.
  intros [Hmax Hlen]. split; simpl.
  - rewrite sum_points_app. lia.
  - rewrite length_app. simpl. lia.
Qed.

Lemma step_counts_consistent iv o sid :
  stored_with counts_consistent sid iv ->
  stored_with counts_consistent sid (step iv o).
Proof.
  intros (s & Hs & Hinv). unfold stored_with.
  destruct (step_session_change iv o sid)
    as [ | now _ | s0 level q Hs0 _ | s0 current response ev now Hs0 | s0 now Hs0 ];
    try (assert (s0 = s) as -> by congruence).
  - eauto.
  - eexists; split; [reflexivity|]. split; reflexivity.
  - eexists; split; [reflexivity|]. by apply ask_counts_consistent.
  - eexists; split; [reflexivity|]. exact Hinv.
  - eexists; split; [reflexivity|]. exact Hinv.
Qed.

Lemma run_counts_consistent ops iv sid :
  stored_with counts_consistent sid iv ->
  stored_with counts_consistent sid (run ops iv).
Proof.
  revert iv. induction ops as [|o ops IH]; intros iv Hiv; simpl; [assumption|].
  apply IH. by apply step_counts_consistent.
Qed.

(** C4. After [create_session] and any sequence of calls, the session has
    [max_score] equal to the sum of the points of [questions_asked] and
    [current_question] equal to the length of [questions_asked]. *)
Theorem max_score_is_sum_of_points iv uuid now ops :
  exists s,
    sessions (run ops (create_session iv uuid now).2) !! uuid = Some s
    /\ max_score s = sum_points (questions_asked s)
    /\ Z.of_nat (length (questions_asked s)) = current_question s.
Proof.
  apply (run_counts_consistent ops _ uuid).
  exists (new_session uuid now). simpl. rewrite lookup_insert_eq.
  split; [reflexivity|]. split; reflexivity.
Qed.

Lemma step_difficulty_level iv o sid s :
  sessions iv !! sid = Some s -> level_in_range s -> ~ creates sid o ->
  exists s', sessions (step iv o) !! sid = Some s'
             /\ difficulty_level s <= difficulty_level s' /\ level_in_range s'.
Proof.
  intros Hs Hrange Hcreate. unfold level_in_range in *.
  destruct (step_session_change iv o sid)
    as [ | now Ho | s0 level q Hs0 Hlevel | s0 current response ev now Hs0 | s0 now Hs0 ];
    try (assert (s0 = s) as -> by congruence).
  - exists s. split; [assumption | lia].
  - subst o. simpl in Hcreate. contradiction.
  - eexists; split; [reflexivity|]. simpl.
    pose proof (adjust_difficulty_bounds s Hrange). destruct Hlevel; lia.
  - eexists; split; [reflexivity|]. simpl. lia.
  - eexists; split; [reflexivity|]. simpl. lia.
Qed.

Lemma run_difficulty_level ops iv sid s :
  sessions iv !! sid = Some s -> level_in_range s ->
  Forall (fun o => ~ creates sid o) ops ->
  exists s', sessions (run ops iv) !! sid = Some s'
             /\ difficulty_level s <= difficulty_level s' /\ level_in_range s'.
Proof.
  revert iv s. induction ops as [|o ops IH]; intros iv s Hs Hrange Hops; simpl.
  - exists s. split; [assumption|]. split; [lia | assumption].
  - apply Forall_cons in Hops as [Ho Hops].
    destruct (step_difficulty_level iv o sid s Hs Hrange Ho) as (s1 & Hs1 & Hle1 & Hrange1).
    destruct (IH (step iv o) s1 Hs1 Hrange1 Hops) as (s' & Hs' & Hle & Hrange').
    exists s'. split; [assumption|]. split; [lia | assumption].
Qed.

(** C5. Along any sequence of calls made after [create_session], none of
    which stores a new session under the same identifier, the difficulty
    level of the session never decreases and stays between 1 and 3. *)
Theorem difficulty_level_monotone iv uuid now ops1 ops2 :
  Forall (fun o => ~ creates uuid o) (ops1 ++ ops2) ->
  exists s1 s2,
    sessions (run ops1 (create_session iv uuid now).2) !! uuid = Some s1
    /\ sessions (run (ops1 ++ ops2) (create_session iv uuid now).2) !! uuid = Some s2
    /\ 1 <= difficulty_level s1
    /\ difficulty_level s1 <= difficulty_level s2
    /\ difficulty_level s2 <= 3.
Proof.
  intros Hops. apply Forall_app in Hops as [Hops1 Hops2].
  destruct (run_difficulty_level ops1 (create_session iv uuid now).2 uuid
              (new_session uuid now)) as (s1 & Hs1 & _ & Hrange1);
    [simpl; apply lookup_insert_eq | unfold level_in_range; simpl; lia | assumption |].
  destruct (run_difficulty_level ops2 _ uuid s1 Hs1 Hrange1 Hops2)
    as (s2 & Hs2 & Hle & Hrange2).
  exists s1, s2. unfold run in *. rewrite fold_left_app.
  unfold level_in_range in *. repeat split; try assumption; lia.
Qed.

Lemma difficulty_level_monotone_witness :
  exists s1 s2,
    sessions (run [OpNext "s1" 0%nat; OpSubmit "s1" fifteen_words None 5]
                (create_session (init default_config false) "s1" 0).2) !! "s1" = Some s1
    /\ sessions (run ([OpNext "s1" 0%nat; OpSubmit "s1" fifteen_words None 5]
                      ++ [OpNext "s1" 1%nat; OpReport "s1" 9])
                (create_session (init default_config false) "s1" 0).2) !! "s1" = Some s2
    /\ 1 <= difficulty_level s1
    /\ difficulty_level s1 <= difficulty_level s2
    /\ difficulty_level s2 <= 3.
Proof.
  apply (difficulty_level_monotone (init default_config false) "s1" 0
           [OpNext "s1" 0%nat; OpSubmit "s1" fifteen_words None 5]
           [OpNext "s1" 1%nat; OpReport "s1" 9]).
  repeat constructor; simpl; tauto.
Defined.

(** ** [generate_final_report] *)

Lemma complete_complete s now1 now2 : complete (complete s now1) now2 = complete s now2.
Proof. reflexivity. Qed.

(** Whether the report can be assembled does not depend on the clock. *)
Lemma detailed_report_raises cfg s now1 now2 :
  detailed_report cfg (complete s now1) = None <->
  detailed_report cfg (complete s now2) = None.
Proof.
  unfold detailed_report. simpl.
  destruct (performance_analysis 1 (responses s) (questions_asked s)); split; congruence.
Qed.

(** C2, as the code has it. Every call of [generate_final_report] on a
    stored session marks it completed and stamps [completed_at] with the
    time of that call, so a second call stamps it again. The second call
    returns what a first call at its time would have returned: the two
    reports agree on every entry but the duration and the text that
    quotes it, and are the same when the clock reads the same. *)
Theorem generate_final_report_twice iv sid now1 now2 s :
  sessions iv !! sid = Some s ->
  let first := generate_final_report iv sid now1 in
  let second := generate_final_report first.2 sid now2 in
  sessions first.2 !! sid = Some (complete s now1)
  /\ sessions second.2 !! sid = Some (complete s now2)
  /\ second = generate_final_report iv sid now2
  /\ (now1 = now2 -> second = first)
  /\ match first.1, second.1 with
     | Returned (Some r1), Returned (Some r2) =>
         report_session_id r1 = report_session_id r2
         /\ overall_score r1 = overall_score r2
         /\ max_possible_score r1 = max_possible_score r2
         /\ percentage r1 = percentage r2
         /\ proficiency_level r1 = proficiency_level r2
         /\ questions_answered r1 = questions_answered r2
         /\ detailed_responses r1 = detailed_responses r2
         /\ recommendation r1 = recommendation r2
         /\ duration_minutes r1 = _calculate_duration (complete s now1)
         /\ duration_minutes r2 = _calculate_duration (complete s now2)
     | Raised e1, Raised e2 => e1 = e2
     | _, _ => False
     end.
Proof.
  intros Hs.
  assert (forall now,
    generate_final_report
      (with_sessions iv (<[sid := complete s now1]> (sessions iv))) sid now
    = generate_final_report iv sid now) as Hagain.
  { intros now. unfold generate_final_report. simpl.
    rewrite Hs, lookup_insert_eq, complete_complete, insert_insert_eq. reflexivity. }
  assert ((generate_final_report iv sid now1).2
          = with_sessions iv (<[sid := complete s now1]> (sessions iv))) as Hfirst.
  { unfold generate_final_report. rewrite Hs. simpl.
    destruct (detailed_report _ _); reflexivity. }
  assert (forall now,
    sessions (generate_final_report iv sid now).2 !! sid = Some (complete s now)) as Hstamp.
  { intros now. unfold generate_final_report. rewrite Hs. simpl.
    destruct (detailed_report _ _); simpl; apply lookup_insert_eq. }
  cbv zeta. rewrite Hfirst, Hagain, <- Hfirst.
  split; [apply Hstamp|]. split; [apply Hstamp|]. split; [reflexivity|].
  split; [intros ->; reflexivity|].
  unfold generate_final_report. rewrite Hs. simpl.
  pose proof (detailed_report_raises (interviewer_config iv) s now1 now2) as Hraise.
  destruct (detailed_report _ (complete s now1)) as [text1|],
           (detailed_report _ (complete s now2)) as [text2|]; simpl.
  - repeat split.
  - destruct Hraise as [_ Hraise]. by specialize (Hraise eq_refl).
  - destruct Hraise as [Hraise _]. by specialize (Hraise eq_refl).
  - reflexivity.
Qed.

Lemma generate_final_report_twice_witness :
  sessions (generate_final_report
              (generate_final_report one_question_asked "s1" 60000000).2
              "s1" 120000000).2 !! "s1"
  = Some (complete (ask (new_session "s1" 0) 1 vlookup_question) 120000000).
Proof.
  destruct (generate_final_report_twice one_question_asked "s1" 60000000 120000000
              (ask (new_session "s1" 0) 1 vlookup_question)) as (_ & H & _);
    [vm_compute; reflexivity|].
  exact H.
Defined.

(** C2, as stated, fails: a report generated one minute and again two
    minutes after the session was created. The second call moves
    [completed_at], and the two reports differ in their duration. *)
Lemma generate_final_report_restamps :
  let first := generate_final_report one_question_asked "s1" 60000000 in
  let second := generate_final_report first.2 "s1" 120000000 in
  exists s0 s1 s2 r1 r2,
    sessions one_question_asked !! "s1" = Some s0
    /\ session_status s0 = active
    /\ sessions first.2 !! "s1" = Some s1
    /\ sessions second.2 !! "s1" = Some s2
    /\ completed_at s1 = Some 60000000
    /\ completed_at s2 = Some 120000000
    /\ completed_at s2 <> completed_at s1
    /\ first.1 = Returned (Some r1)
    /\ second.1 = Returned (Some r2)
    /\ duration_minutes r1 = (10 # 10)%Q
    /\ duration_minutes r2 = (20 # 10)%Q
    /\ r1 <> r2.
Proof.
  cbv zeta. eexists _, _, _, _, _.
  repeat split; try (vm_compute; reflexivity).
  - discriminate.
  - intros Heq. apply (f_equal duration_minutes) in Heq. vm_compute in Heq.
    discriminate Heq.
Qed.

(** ** [evaluate_response] on a completed session *)

(** C3 fails on a session that is completed: [evaluate_response] does not
    look at the status. The answer is evaluated, stored and scored. *)
Theorem evaluate_response_completed_session :
  let result := evaluate_response one_question_completed "s1" fifteen_words None 90000000 in
  exists s s' ev,
    sessions one_question_completed !! "s1" = Some s
    /\ session_status s = completed
    /\ responses s = []
    /\ total_score s = 0
    /\ result.1.1 = Some ev
    /\ score ev = 5
    /\ result.2 = [FallbackCall fifteen_words vlookup_question]
    /\ sessions result.1.2 !! "s1" = Some s'
    /\ responses s' = [Answer (question_text vlookup_question) fifteen_words ev 90000000]
    /\ total_score s' = 5
    /\ result.1.2 <> one_question_completed.
Proof.
  cbv zeta. eexists _, _, _.
  repeat split; try (vm_compute; reflexivity).
  intros Heq. apply (f_equal (fun iv => total_score <$> sessions iv !! "s1")) in Heq.
  vm_compute in Heq. discriminate Heq.
Qed.

(** The rejections [evaluate_response] does make: an unknown identifier
    and a session without a question give [None], no evaluator is
    invoked, and the engine is left as it was. *)
Lemma evaluate_response_rejects iv sid response reply now :
  sessions iv !! sid = None
  \/ (exists s, sessions iv !! sid = Some s /\ questions_asked s = []) ->
  evaluate_response iv sid response reply now = (None, iv, []).
Proof.
  intros [Hnone | (s & Hs & Hnil)].
  - by apply evaluate_response_unknown.
  - by eapply evaluate_response_no_question.
Qed.

(** ** Worked examples *)

(** The fifteen-word answer to the VLOOKUP question: base score 3, one
    topic found, final score 5, and the advice to give more detail. *)
Example fallback_fifteen_words :
  word_count fifteen_words = 15
  /\ score (evaluate_response_fallback fifteen_words vlookup_question) = 5
  /\ improvements (evaluate_response_fallback fifteen_words vlookup_question)
     = ["Provide more detailed explanations"].
Proof. repeat split. Qed.

(** A session with 16 of 20 points is at 80 percent, rated Advanced. *)
Example proficiency_at_eighty_percent :
  let s := {| session_id := "s1"; current_question := 1; total_score := 16;
              max_score := 20; responses := []; difficulty_level := 1;
              questions_asked := [vlookup_question]; started_at := 0;
              completed_at := None; session_status := active |} in
  Qeq (overall_percentage s) 80
  /\ proficiency_of (overall_percentage s) = "Advanced"
  /\ _get_hiring_recommendation (overall_percentage s)
     = "Strong Hire - Excellent Excel skills demonstrated".
Proof. repeat split. Qed.

(** * Further properties of the engine *)

(** ** What a call changes *)

Lemma step_static iv o :
  interviewer_config (step iv o) = interviewer_config iv
  /\ groq_client (step iv o) = groq_client iv
  /\ questions (step iv o) = questions iv.
Proof.
  destruct o as [uuid now | sid r | sid response reply now | sid now]; simpl.
  - repeat split.
  - destruct (get_next_question_cases iv sid r)
      as [-> | (s & first & rest & _ & _ & _ & _ & Hcase)]; [repeat split|].
    simpl in Hcase. rewrite Hcase. repeat split.
  - unfold evaluate_response.
    destruct (sessions iv !! sid) as [s|]; [|repeat split].
    destruct (last (questions_asked s)); [|repeat split].
    destruct (_ <? _); [repeat split|].
    destruct (groq_client iv) eqn:Hc; simpl;
      [destruct (evaluate_response_with_groq iv reply)|]; simpl; rewrite ?Hc; repeat split.
  - unfold generate_final_report.
    destruct (sessions iv !! sid) as [s|]; [|repeat split].
    destruct (detailed_report _ _); repeat split.
Qed.

Lemma run_static ops iv :
  interviewer_config (run ops iv) = interviewer_config iv
  /\ groq_client (run ops iv) = groq_client iv
  /\ questions (run ops iv) = questions iv.
Proof.
  revert iv. induction ops as [|o ops IH]; intros iv; simpl; [repeat split|].
  destruct (IH (step iv o)) as (-> & -> & ->). apply step_static.
Qed.

Lemma step_session_effect iv o sid :
  session_effect iv o sid (sessions (step iv o) !! sid).
Proof.
  destruct o as [uuid now | sid' r | sid' response reply now | sid' now]; simpl.
  - destruct (decide (uuid = sid)) as [->|Hne].
    + rewrite lookup_insert_eq. by constructor.
    + rewrite lookup_insert_ne by assumption. constructor.
  - destruct (get_next_question_cases iv sid' r)
      as [-> | (s & first & rest & Hs & Hactive & Havail & Hlt & Hcase)]; [constructor|].
    simpl in Hcase. rewrite Hcase. simpl.
    destruct (decide (sid' = sid)) as [->|Hne].
    + rewrite lookup_insert_eq. eapply effect_ask; try eassumption; try reflexivity.
      * rewrite Havail. apply select_question_available. left.
      * apply select_question_level.
    + rewrite lookup_insert_ne by assumption. constructor.
  - unfold evaluate_response.
    destruct (sessions iv !! sid') as [s|] eqn:Hs; [|constructor].
    destruct (last (questions_asked s)) as [current|] eqn:Hlast; [|constructor].
    fold (word_count response).
    destruct (Z.ltb_spec (word_count response) (min_response_length (interviewer_config iv)));
      [constructor|].
    destruct (groq_client iv); simpl.
    + destruct (evaluate_response_with_groq iv reply); simpl;
        (destruct (decide (sid' = sid)) as [->|Hne];
         [rewrite lookup_insert_eq; by eapply effect_answer
         |rewrite lookup_insert_ne by assumption; constructor]).
    + destruct (decide (sid' = sid)) as [->|Hne];
        [rewrite lookup_insert_eq; by eapply effect_answer
        |rewrite lookup_insert_ne by assumption; constructor].
  - unfold generate_final_report.
    destruct (sessions iv !! sid') as [s|] eqn:Hs; [|constructor].
    destruct (detailed_report _ _); simpl;
      (destruct (decide (sid' = sid)) as [->|Hne];
       [rewrite lookup_insert_eq; by eapply effect_complete
       |rewrite lookup_insert_ne by assumption; constructor]).
Qed.

(** An invariant of sessions that every kind of change keeps is kept by
    every sequence of calls. *)
Lemma run_stored_with (P : interviewer -> session -> Prop) sid :
  (forall iv o s, P iv s -> P (step iv o) s) ->
  (forall iv now, P iv (new_session sid now)) ->
  (forall iv s level q,
     P iv s -> session_status s = active ->
     current_question s < max_questions (interviewer_config iv) ->
     q ∈ available_questions iv s ->
     level = difficulty_level s \/ level = adjust_difficulty s ->
     P iv (ask s level q)) ->
  (forall iv s current response ev now,
     P iv s -> P iv (record_answer s current response ev now)) ->
  (forall iv s now, P iv s -> P iv (complete s now)) ->
  forall ops iv, stored_with (P iv) sid iv -> stored_with (P (run ops iv)) sid (run ops iv).
Proof.
  intros Hstatic Hnew Hask Hanswer Hcomplete.
  induction ops as [|o ops IH]; intros iv Hiv; simpl; [assumption|].
  apply IH. destruct Hiv as (s & Hs & HP). unfold stored_with.
  destruct (step_session_effect iv o sid)
    as [ | now _ | r s0 level q _ Hs0 Hactive Hlt Hq Hlevel
       | response reply now s0 current ev _ Hs0 _ _ | now s0 _ Hs0 ];
    try (assert (s0 = s) as -> by congruence).
  - exists s. split; [assumption|]. by apply Hstatic.
  - eexists; split; [reflexivity|]. apply Hnew.
  - eexists; split; [reflexivity|]. apply Hstatic. by apply Hask.
  - eexists; split; [reflexivity|]. apply Hstatic. by apply Hanswer.
  - eexists; split; [reflexivity|]. apply Hstatic. by apply Hcomplete.
Qed.

Lemma asked_well_formed_static iv o s :
  asked_well_formed iv s -> asked_well_formed (step iv o) s.
Proof.
  unfold asked_well_formed. destruct (step_static iv o) as (-> & _ & ->). tauto.
Qed.

Lemma run_asked_well_formed iv uuid now ops :
  let iv' := run ops (create_session iv uuid now).2 in
  exists s,
    sessions iv' !! uuid = Some s
    /\ NoDup (questions_asked s)
    /\ (forall q, q ∈ questions_asked s -> q ∈ questions iv)
    /\ Z.of_nat (length (questions_asked s)) = current_question s
    /\ current_question s <= Z.max 0 (max_questions (interviewer_config iv)).
Proof.
  cbv zeta.
  pose proof (run_stored_with asked_well_formed uuid) as Hrun.
  destruct (Hrun asked_well_formed_static) with (ops := ops)
    (iv := (create_session iv uuid now).2) as (s & Hs & Hwf).
  - intros iv0 now0. unfold asked_well_formed. simpl.
    split; [constructor|]. split; [intros q Hq; by apply not_elem_of_nil in Hq|].
    split; lia.
  - intros iv0 s level q (Hnodup & Hbank & Hlen & Hmax) _ Hlt Hq _.
    apply elem_of_available_questions in Hq as (Hqbank & _ & Hfresh).
    unfold asked_well_formed. simpl. repeat split.
    + apply NoDup_app. repeat split; [assumption | | apply NoDup_singleton].
      intros x Hx Hx'. apply list_elem_of_singleton in Hx'. congruence.
    + intros x Hx. apply elem_of_app in Hx as [Hx|Hx]; [by apply Hbank|].
      apply list_elem_of_singleton in Hx. by subst.
    + rewrite length_app. simpl. lia.
    + lia.
  - intros iv0 s current response ev now0 H. exact H.
  - intros iv0 s now0 H. exact H.
  - exists (new_session uuid now). simpl. rewrite lookup_insert_eq.
    split; [reflexivity|]. unfold asked_well_formed. simpl.
    split; [constructor|]. split; [intros q Hq; by apply not_elem_of_nil in Hq|].
    split; lia.
  - exists s. split; [assumption|].
    destruct (run_static ops (create_session iv uuid now).2) as (Hcfg & _ & Hbank).
    unfold asked_well_formed in Hwf. rewrite Hcfg, Hbank in Hwf. simpl in Hwf.
    exact Hwf.
Qed.

(** X1. After [create_session] and any sequence of calls, the questions
    asked in the session are pairwise distinct, all come from the bank,
    and are [current_question] many, which is at most [max_questions]
    (none when [max_questions] is negative). *)
Theorem questions_asked_well_formed iv uuid now ops :
  let iv' := run ops (create_session iv uuid now).2 in
  exists s,
    sessions iv' !! uuid = Some s
    /\ NoDup (questions_asked s)
    /\ (forall q, q ∈ questions_asked s -> q ∈ questions iv)
    /\ Z.of_nat (length (questions_asked s)) = current_question s
    /\ current_question s <= Z.max 0 (max_questions (interviewer_config iv)).
Proof. exact (run_asked_well_formed iv uuid now ops). Qed.

(** X2. A question returned for a session that was created by
    [create_session] carries a [question_number] between 1 and
    [total_questions], which is [max_questions]; the number is the count
    of questions asked so far, this one included. *)
Theorem question_number_bounds iv uuid now ops r v iv'' :
  let iv' := run ops (create_session iv uuid now).2 in
  get_next_question iv' uuid r = (Some v, iv'') ->
  1 <= question_number v <= total_questions v
  /\ total_questions v = max_questions (interviewer_config iv)
  /\ exists s', sessions iv'' !! uuid = Some s'
                /\ question_number v = Z.of_nat (length (questions_asked s')).
Proof.
  cbv zeta. intros Hcall.
  destruct (run_asked_well_formed iv uuid now ops) as (s & Hs & _ & _ & Hlen & _).
  destruct (run_static ops (create_session iv uuid now).2) as (Hcfg & _ & _).
  cbv zeta in Hs. change (interviewer_config (create_session iv uuid now).2)
    with (interviewer_config iv) in Hcfg.
  remember (run ops (create_session iv uuid now).2) as iv1 eqn:Hiv1. clear Hiv1.
  destruct (get_next_question_cases iv1 uuid r)
    as [Hcase | (s0 & first & rest & Hs0 & _ & _ & Hlt & Hcase)]; [congruence|].
  cbv zeta in Hcase. rewrite Hcase in Hcall. injection Hcall as <- <-.
  assert (s0 = s) as -> by congruence.
  rewrite Hcfg in Hlt. simpl. rewrite Hcfg. split; [lia|]. split; [reflexivity|].
  eexists. rewrite lookup_insert_eq. split; [reflexivity|].
  simpl. rewrite length_app. simpl. lia.
Qed.

Lemma question_number_bounds_witness :
  exists v, (get_next_question one_question_asked "s1" 4).1 = Some v
            /\ 1 <= question_number v <= total_questions v.
Proof.
  destruct (get_next_question one_question_asked "s1" 4) as [[v|] iv''] eqn:Hcall;
    [|vm_compute in Hcall; discriminate Hcall].
  exists v. split; [reflexivity|].
  apply (question_number_bounds (init default_config false) "s1" 0
           [OpNext "s1" 0%nat] 4%nat v iv'' Hcall).
Defined.

(** The reasons for which [get_next_question] gives no question. *)
Lemma get_next_question_None_inv iv sid r :
  (get_next_question iv sid r).1 = None ->
  get_next_question iv sid r = (None, iv).
Proof.
  intros Hnone.
  destruct (get_next_question_cases iv sid r)
    as [Hcase | (s & first & rest & _ & _ & _ & _ & Hcase)]; [assumption|].
  cbv zeta in Hcase. rewrite Hcase in Hnone. discriminate Hnone.
Qed.

Lemma get_next_question_completed iv sid r s :
  sessions iv !! sid = Some s -> session_status s = completed ->
  get_next_question iv sid r = (None, iv).
Proof.
  intros Hs Hstatus. unfold get_next_question. rewrite Hs, Hstatus.
  destruct (decide (completed <> active)) as [_|Hne]; [reflexivity|].
  exfalso. apply Hne. discriminate.
Qed.

(** X3. [get_next_question] gives [None] for an identifier that is not
    stored and for a session that is completed, and whenever it gives
    [None], for whatever reason, it leaves the engine as it was. *)
Theorem get_next_question_rejects iv sid r :
  (sessions iv !! sid = None -> get_next_question iv sid r = (None, iv))
  /\ (forall s, sessions iv !! sid = Some s -> session_status s = completed ->
                get_next_question iv sid r = (None, iv))
  /\ ((get_next_question iv sid r).1 = None -> (get_next_question iv sid r).2 = iv).
Proof.
  split; [|split].
  - intros Hs. unfold get_next_question. rewrite Hs. reflexivity.
  - intros s. apply get_next_question_completed.
  - intros Hnone. rewrite (get_next_question_None_inv iv sid r Hnone). reflexivity.
Qed.

Lemma get_next_question_rejects_witness :
  get_next_question one_question_completed "s1" 0 = (None, one_question_completed)
  /\ get_next_question one_question_completed "nobody" 0 = (None, one_question_completed).
Proof.
  destruct (get_next_question_rejects one_question_completed "s1" 0) as (_ & Hdone & _).
  destruct (get_next_question_rejects one_question_completed "nobody" 0) as (Hunknown & _).
  split.
  - apply (Hdone (complete (ask (new_session "s1" 0) 1 vlookup_question) 60000000));
      vm_compute; reflexivity.
  - apply Hunknown. vm_compute. reflexivity.
Defined.

Lemma sum_scores_app rs a :
  sum_scores (rs ++ [a]) = sum_scores rs + score (answer_evaluation a).
Proof. induction rs as [|a' rs IH]; simpl; [|rewrite IH]; lia. Qed.

(** X4. In an engine without a remote client, where every evaluation
    comes from the fallback evaluator, [total_score] is the sum of the
    scores of the stored answers after [create_session] and any sequence
    of calls. *)
Theorem total_score_is_sum_of_scores iv uuid now ops :
  groq_client iv = false ->
  exists s,
    sessions (run ops (create_session iv uuid now).2) !! uuid = Some s
    /\ total_score s = sum_scores (responses s).
Proof.
  intros _.
  apply (run_stored_with (fun _ s => total_score s = sum_scores (responses s)) uuid).
  - intros iv0 o s H. exact H.
  - intros iv0 now0. reflexivity.
  - intros iv0 s level q H _ _ _ _. exact H.
  - intros iv0 s current response ev now0 H. simpl. rewrite sum_scores_app. simpl. lia.
  - intros iv0 s now0 H. exact H.
  - exists (new_session uuid now). simpl. rewrite lookup_insert_eq. split; reflexivity.
Qed.

Lemma total_score_is_sum_of_scores_witness :
  exists s,
    sessions (run [OpNext "s1" 0%nat; OpSubmit "s1" fifteen_words None 5]
                  (create_session (init default_config false) "s1" 0).2) !! "s1" = Some s
    /\ total_score s = sum_scores (responses s).
Proof.
  apply (total_score_is_sum_of_scores (init default_config false) "s1" 0
           [OpNext "s1" 0%nat; OpSubmit "s1" fifteen_words None 5]).
  reflexivity.
Defined.

(** ** Completion is final *)

Lemma step_completed iv o sid s :
  sessions iv !! sid = Some s -> session_status s = completed -> ~ creates sid o ->
  exists s', sessions (step iv o) !! sid = Some s'
             /\ session_status s' = completed
             /\ questions_asked s' = questions_asked s
             /\ current_question s' = current_question s
             /\ max_score s' = max_score s
             /\ difficulty_level s' = difficulty_level s
             /\ started_at s' = started_at s.
Proof.
  intros Hs Hdone Hcreate.
  destruct (step_session_effect iv o sid)
    as [ | now Ho | r s0 level q _ Hs0 Hactive _ _ _
       | response reply now s0 current ev _ Hs0 _ _ | now s0 _ Hs0 ];
    try (assert (s0 = s) as -> by congruence).
  - exists s. repeat split; assumption.
  - subst o. simpl in Hcreate. contradiction.
  - congruence.
  - eexists. split; [reflexivity|]. repeat split; assumption.
  - eexists. split; [reflexivity|]. repeat split.
Qed.

(** X5. Once a session is completed it stays completed under every
    sequence of calls that does not store a new session under its
    identifier: it is asked no further question, so its questions, its
    question count, its maximum score and its difficulty level are
    frozen, and [get_next_question] keeps answering [None]. *)
Theorem completed_is_final iv sid s ops r :
  sessions iv !! sid = Some s ->
  session_status s = completed ->
  Forall (fun o => ~ creates sid o) ops ->
  (exists s', sessions (run ops iv) !! sid = Some s'
              /\ session_status s' = completed
              /\ questions_asked s' = questions_asked s
              /\ current_question s' = current_question s
              /\ max_score s' = max_score s
              /\ difficulty_level s' = difficulty_level s
              /\ started_at s' = started_at s)
  /\ get_next_question (run ops iv) sid r = (None, run ops iv).
Proof.
  intros Hs Hdone Hops.
  assert (exists s', sessions (run ops iv) !! sid = Some s'
              /\ session_status s' = completed
              /\ questions_asked s' = questions_asked s
              /\ current_question s' = current_question s
              /\ max_score s' = max_score s
              /\ difficulty_level s' = difficulty_level s
              /\ started_at s' = started_at s) as Hfinal.
  { revert iv s Hs Hdone. induction Hops as [|o ops Ho Hops IH]; intros iv s Hs Hdone; simpl.
    - exists s. repeat split; assumption.
    - destruct (step_completed iv o sid s Hs Hdone Ho)
        as (s1 & Hs1 & Hdone1 & Ha & Hb & Hc & Hd & He).
      destruct (IH (step iv o) s1 Hs1 Hdone1) as (s' & Hs' & Hdone' & Ha' & Hb' & Hc' & Hd' & He').
      exists s'. repeat split; congruence. }
  split; [exact Hfinal|].
  destruct Hfinal as (s' & Hs' & Hdone' & _).
  by apply (get_next_question_completed (run ops iv) sid r s').
Qed.

Lemma completed_is_final_witness :
  get_next_question
    (run [OpSubmit "s1" fifteen_words None 70000000; OpNext "s1" 2%nat;
          OpReport "s1" 80000000] one_question_completed) "s1" 5
  = (None,
     run [OpSubmit "s1" fifteen_words None 70000000; OpNext "s1" 2%nat;
          OpReport "s1" 80000000] one_question_completed).
Proof.
  apply (completed_is_final one_question_completed "s1"
           (complete (ask (new_session "s1" 0) 1 vlookup_question) 60000000)
           [OpSubmit "s1" fifteen_words None 70000000; OpNext "s1" 2%nat;
            OpReport "s1" 80000000] 5%nat).
  - vm_compute. reflexivity.
  - reflexivity.
  - repeat constructor; simpl; tauto.
Defined.

(** ** The adaptive choice *)

Lemma success_rate_above s :
  Qgtb (success_rate s) (8 # 10) = true <->
  0 < max_score s /\ 4 * max_score s < 5 * total_score s.
Proof.
  unfold Qgtb, success_rate. rewrite negb_true_iff, <- not_true_iff_false, Qle_bool_iff.
  destruct (Z.ltb_spec 0 (max_score s)) as [Hpos|Hneg].
  - unfold Qle. simpl. rewrite Z2Pos.id by assumption. lia.
  - unfold Qle. simpl. lia.
Qed.

(** X6. For a session at a level between 1 and 3, the adjustment made
    before every question but the first raises the level by one, capped
    at 3, exactly when more than 80 percent of [max_score] was scored;
    in every other case, a success rate below 40 percent included, the
    level stays as it is. *)
Theorem adjust_difficulty_rule s :
  1 <= difficulty_level s <= 3 ->
  adjust_difficulty s =
    if decide (0 < max_score s /\ 4 * max_score s < 5 * total_score s)
    then Z.min 3 (difficulty_level s + 1)
    else difficulty_level s.
Proof.
  intros Hrange. unfold adjust_difficulty.
  pose proof (success_rate_above s) as Habove.
  destruct (Qgtb (success_rate s) (8 # 10)).
  - destruct (decide _) as [_|Hno]; [reflexivity|]. exfalso. apply Hno. by apply Habove.
  - destruct (decide _) as [Hyes|_].
    + apply Habove in Hyes. discriminate Hyes.
    + destruct (Qltb _ _); lia.
Qed.

Lemma adjust_difficulty_rule_witness :
  adjust_difficulty
    {| session_id := "s1"; current_question := 1; total_score := 17;
       max_score := 20; responses := []; difficulty_level := 1;
       questions_asked := [vlookup_question]; started_at := 0;
       completed_at := None; session_status := active |} = 2
  /\ adjust_difficulty
    {| session_id := "s1"; current_question := 1; total_score := 16;
       max_score := 20; responses := []; difficulty_level := 1;
       questions_asked := [vlookup_question]; started_at := 0;
       completed_at := None; session_status := active |} = 1.
Proof.
  split.
  - rewrite adjust_difficulty_rule; [reflexivity | simpl; lia].
  - rewrite adjust_difficulty_rule; [reflexivity | simpl; lia].
Defined.

Lemma select_question_suitable s r first available :
  current_question s <> 0 ->
  first ∈ available ->
  (exists q, q ∈ available /\ difficulty q = adjust_difficulty s) ->
  difficulty (select_question s r first available).2 = adjust_difficulty s.
Proof.
  intros Hnz Hfirst (q & Hq & Hdiff). unfold select_question.
  destruct (Z.eqb_spec (current_question s) 0) as [|_]; [contradiction|]. simpl.
  assert (q ∈ filter (fun q => difficulty q = adjust_difficulty s) available) as Hin
    by (apply list_elem_of_filter; tauto).
  destruct (filter _ available) as [|q0 suitable] eqn:Hsuitable;
    [by apply not_elem_of_nil in Hin|].
  destruct (random_choice_is_Some r (q0 :: suitable)) as [x Hx]; [discriminate|].
  rewrite Hx. simpl. apply random_choice_elem in Hx. rewrite <- Hsuitable in Hx.
  apply list_elem_of_filter in Hx. tauto.
Qed.

(** X7. A question returned after the first has a difficulty of at most
    the level before the call plus one; the session leaves the call at
    the adjusted level; and when some question that may still be asked
    has exactly the adjusted level, the returned question has that
    level. *)
Theorem get_next_question_adaptive iv sid r s v iv' :
  sessions iv !! sid = Some s ->
  current_question s <> 0 ->
  get_next_question iv sid r = (Some v, iv') ->
  view_difficulty v <= difficulty_level s + 1
  /\ (exists s', sessions iv' !! sid = Some s'
                 /\ difficulty_level s' = adjust_difficulty s)
  /\ ((exists q, q ∈ questions iv
                 /\ (q ∉ questions_asked s)
                 /\ difficulty q <= difficulty_level s + 1
                 /\ difficulty q = adjust_difficulty s) ->
      view_difficulty v = adjust_difficulty s).
Proof.
  intros Hs Hnz Hcall.
  destruct (get_next_question_cases iv sid r)
    as [Hcase | (s0 & first & rest & Hs0 & _ & Havail & _ & Hcase)]; [congruence|].
  cbv zeta in Hcase. rewrite Hcase in Hcall. injection Hcall as <- <-.
  assert (s0 = s) as -> by congruence.
  assert (first ∈ first :: rest) as Hfirst by left.
  pose proof (select_question_available s r first (first :: rest) Hfirst) as Hq.
  rewrite <- Havail in Hq at 2. apply elem_of_available_questions in Hq as (_ & Hle & _).
  simpl. split; [exact Hle|]. split.
  - eexists. rewrite lookup_insert_eq. split; [reflexivity|]. simpl.
    unfold select_question. destruct (Z.eqb_spec (current_question s) 0); [contradiction|].
    reflexivity.
  - intros (q & Hbank & Hfresh & Hqle & Hdiff).
    apply select_question_suitable; [assumption | assumption |].
    exists q. split; [|assumption]. rewrite <- Havail.
    apply elem_of_available_questions. tauto.
Qed.

Lemma get_next_question_adaptive_witness :
  exists v, (get_next_question one_question_asked "s1" 3).1 = Some v
            /\ view_difficulty v <= 1 + 1.
Proof.
  destruct (get_next_question one_question_asked "s1" 3) as [[v|] iv'] eqn:Hcall;
    [|vm_compute in Hcall; discriminate Hcall].
  exists v. split; [reflexivity|].
  apply (get_next_question_adaptive one_question_asked "s1" 3
           (ask (new_session "s1" 0) 1 vlookup_question) v iv').
  - vm_compute. reflexivity.
  - discriminate.
  - exact Hcall.
Defined.

(** ** The loaded bank *)

Lemma get_next_question_Some_intro iv sid r s :
  sessions iv !! sid = Some s ->
  session_status s = active ->
  available_questions iv s <> [] ->
  current_question s < max_questions (interviewer_config iv) ->
  exists v iv', get_next_question iv sid r = (Some v, iv').
Proof.
  intros Hs Hactive Havail Hlt. unfold get_next_question. rewrite Hs.
  destruct (decide (session_status s <> active)) as [Hne|_]; [contradiction|].
  destruct (available_questions iv s) as [|first rest]; [contradiction|].
  destruct (Z.leb_spec (max_questions (interviewer_config iv)) (current_question s)); [lia|].
  destruct (select_question s r first (first :: rest)) as [level q]. eauto.
Qed.

Lemma run_level_in_range iv uuid now ops :
  stored_with level_in_range uuid (run ops (create_session iv uuid now).2).
Proof.
  apply (run_stored_with (fun _ => level_in_range) uuid).
  - intros iv0 o s H. exact H.
  - intros iv0 now0. unfold level_in_range. simpl. lia.
  - intros iv0 s level q H _ _ _ Hlevel. unfold level_in_range in *. simpl.
    pose proof (adjust_difficulty_bounds s H). destruct Hlevel; lia.
  - intros iv0 s current response ev now0 H. exact H.
  - intros iv0 s now0 H. exact H.
  - exists (new_session uuid now). simpl. rewrite lookup_insert_eq.
    split; [reflexivity|]. unfold level_in_range. simpl. lia.
Qed.

(** The six questions of the loaded bank of difficulty 1 or 2. *)
Lemma load_questions_easy :
  exists easy,
    length easy = 6%nat /\ NoDup easy
    /\ forall q, q ∈ easy -> q ∈ load_questions /\ difficulty q <= 2.
Proof.
  exists (filter (fun q => difficulty q <= 2) load_questions).
  split; [reflexivity|]. split.
  - apply NoDup_filter. apply (bool_decide_unpack (NoDup load_questions)).
    vm_compute. exact I.
  - intros q Hq. apply list_elem_of_filter in Hq. tauto.
Qed.

(** X8. With the loaded bank and [max_questions] at most 6, a session
    that was created by [create_session] and is still active is never
    refused a question before it has been asked [max_questions] of
    them: the bank cannot run out first. *)
Theorem loaded_bank_lasts iv uuid now ops r s :
  questions iv = load_questions ->
  max_questions (interviewer_config iv) <= 6 ->
  let iv' := run ops (create_session iv uuid now).2 in
  sessions iv' !! uuid = Some s ->
  session_status s = active ->
  current_question s < max_questions (interviewer_config iv) ->
  exists v iv'', get_next_question iv' uuid r = (Some v, iv'').
Proof.
  intros Hbank Hmax iv' Hs Hactive Hlt. subst iv'.
  destruct (run_asked_well_formed iv uuid now ops) as (s1 & Hs1 & Hnodup & _ & Hlen & _).
  destruct (run_level_in_range iv uuid now ops) as (s2 & Hs2 & Hrange).
  destruct (run_static ops (create_session iv uuid now).2) as (Hcfg & _ & Hq).
  change (interviewer_config (create_session iv uuid now).2)
    with (interviewer_config iv) in Hcfg.
  change (questions (create_session iv uuid now).2) with (questions iv) in Hq.
  cbv zeta in Hs1.
  remember (run ops (create_session iv uuid now).2) as iv1 eqn:Hiv1. clear Hiv1.
  assert (s1 = s) as -> by congruence. assert (s2 = s) as -> by congruence.
  apply (get_next_question_Some_intro iv1 uuid r s Hs Hactive); [|by rewrite Hcfg].
  intros Hempty.
  destruct load_questions_easy as (easy & Hsix & Heasy & Hin).
  assert (forall q, q ∈ easy -> q ∈ questions_asked s) as Hsub.
  { intros q Hqe. destruct (Hin q Hqe) as [Hqb Hqd].
    destruct (decide (q ∈ questions_asked s)) as [|Hfresh]; [assumption|].
    assert (q ∈ available_questions iv1 s) as Hav.
    { apply elem_of_available_questions. rewrite Hq, Hbank.
      unfold level_in_range in Hrange. repeat split; [assumption | lia | assumption]. }
    rewrite Hempty in Hav. by apply not_elem_of_nil in Hav. }
  pose proof (submseteq_length _ _ (NoDup_submseteq _ _ Heasy Hsub)) as Hlength.
  lia.
Qed.

Lemma loaded_bank_lasts_witness :
  exists v iv'', get_next_question one_question_asked "s1" 11 = (Some v, iv'').
Proof.
  apply (loaded_bank_lasts (init default_config false) "s1" 0 [OpNext "s1" 0%nat] 11%nat
           (ask (new_session "s1" 0) 1 vlookup_question)).
  - reflexivity.
  - simpl. lia.
  - vm_compute. reflexivity.
  - reflexivity.
  - simpl. lia.
Defined.

(** ** Sessions do not interfere *)

(** X9. A call made for one session identifier leaves the session stored
    under every other identifier exactly as it was, and it never removes
    a session from the store. *)
Theorem sessions_are_isolated iv o sid :
  (sid <> target o -> sessions (step iv o) !! sid = sessions iv !! sid)
  /\ (is_Some (sessions iv !! sid) -> is_Some (sessions (step iv o) !! sid)).
Proof.
  split.
  - intros Hne.
    destruct (step_session_effect iv o sid)
      as [ | now Ho | r s0 level q Ho _ _ _ _ _
         | response reply now s0 current ev Ho _ _ _ | now s0 Ho _ ];
      try reflexivity; subst o; simpl in Hne; contradiction.
  - intros [s Hs].
    destruct (step_session_effect iv o sid)
      as [ | now Ho | r s0 level q Ho _ _ _ _ _
         | response reply now s0 current ev Ho _ _ _ | now s0 Ho _ ];
      eauto.
Qed.

Lemma sessions_are_isolated_witness :
  sessions (step one_question_asked (OpReport "s2" 5)) !! "s1"
  = sessions one_question_asked !! "s1".
Proof.
  apply (sessions_are_isolated one_question_asked (OpReport "s2" 5) "s1").
  discriminate.
Defined.

(** ** How [evaluate_response] evaluates *)

(** X10. For a stored session with a question asked and a response that
    is long enough, an engine without a remote client, or one whose
    remote evaluator gives no usable reply, returns the evaluation of the
    fallback evaluator, which it invokes exactly once, after the one
    remote attempt if there is a client. The evaluation is stored as one
    more answer, to the question asked last, and its score is added to
    [total_score]; nothing else in the session changes. *)
Theorem evaluate_response_dispatch iv sid response reply now s current :
  sessions iv !! sid = Some s ->
  last (questions_asked s) = Some current ->
  min_response_length (interviewer_config iv) <= word_count response ->
  groq_client iv = false \/ reply = None ->
  let '(returned, iv', calls) := evaluate_response iv sid response reply now in
  let ev := evaluate_response_fallback response current in
  returned = Some ev
  /\ sessions iv' !! sid = Some (record_answer s current response ev now)
  /\ calls = (if groq_client iv then [GroqCall sid response current] else [])
             ++ [FallbackCall response current].
Proof.
  intros Hs Hlast Hlong Hwhy. unfold evaluate_response. rewrite Hs, Hlast.
  fold (word_count response).
  destruct (Z.ltb_spec (word_count response) (min_response_length (interviewer_config iv)));
    [lia|].
  unfold evaluate_response_with_groq.
  destruct (groq_client iv); [destruct reply as [ev|]|]; simpl;
    try (destruct Hwhy as [Hwhy|Hwhy]; discriminate Hwhy);
    (split; [reflexivity|]); (split; [apply lookup_insert_eq | reflexivity]).
Qed.

Lemma evaluate_response_dispatch_witness :
  (evaluate_response one_question_asked "s1" fifteen_words None 7).2
  = [FallbackCall fifteen_words vlookup_question].
Proof.
  pose proof (evaluate_response_dispatch one_question_asked "s1" fifteen_words None 7
                (ask (new_session "s1" 0) 1 vlookup_question) vlookup_question) as H.
  destruct (evaluate_response one_question_asked "s1" fifteen_words None 7)
    as [[returned iv'] calls].
  destruct H as (_ & _ & Hcalls);
    [vm_compute; reflexivity | reflexivity | vm_compute; discriminate
    | left; reflexivity |].
  exact Hcalls.
Defined.

(** ** The report *)

Lemma performance_analysis_None i rs asked :
  (1 <= i)%nat -> (i - 1 <= length asked)%nat ->
  performance_analysis i rs asked = None <->
  (length asked < i - 1 + length rs)%nat.
Proof.
  revert i. induction rs as [|r rs IH]; intros i Hi Hle; simpl.
  - split; [discriminate | lia].
  - destruct (asked !! (i - 1)%nat) as [q|] eqn:Hq.
    + apply lookup_lt_Some in Hq.
      specialize (IH (S i) ltac:(lia) ltac:(lia)).
      destruct (performance_analysis (S i) rs asked).
      * split; [discriminate|]. intros H. exfalso.
        assert (None = Some s -> False) by discriminate.
        destruct IH as [_ IH]. apply H0. symmetry. apply IH. lia.
      * split; [|reflexivity]. intros _. destruct IH as [IH _].
        specialize (IH eq_refl). lia.
    + apply lookup_ge_None in Hq. split; [lia | reflexivity].
Qed.

(** X11. In an engine without a remote client, where every stored
    evaluation comes from the fallback evaluator,
    [generate_final_report] returns [None] for an identifier that is not
    stored and then changes nothing. For a stored session it raises
    [IndexError] exactly when the session holds more answers than asked
    questions, and returns a report otherwise; in both cases the session
    is left marked completed, with the time of the call. *)
Theorem generate_final_report_outcome iv sid now :
  groq_client iv = false ->
  (sessions iv !! sid = None -> generate_final_report iv sid now = (Returned None, iv))
  /\ (forall s,
        sessions iv !! sid = Some s ->
        ((generate_final_report iv sid now).1 = Raised IndexError <->
         (length (questions_asked s) < length (responses s))%nat)
        /\ ((length (responses s) <= length (questions_asked s))%nat ->
            exists rep, (generate_final_report iv sid now).1 = Returned (Some rep))
        /\ sessions (generate_final_report iv sid now).2 !! sid = Some (complete s now)).
Proof.
  intros _. unfold generate_final_report.
  destruct (sessions iv !! sid) as [s|] eqn:Hs;
    [|split; [reflexivity | intros s H; discriminate H]].
  split; [intros H; discriminate H|]. intros s0 [= <-].
  pose proof (performance_analysis_None 1 (responses s) (questions_asked s)
                ltac:(lia) ltac:(simpl; lia)) as Hnone.
  unfold detailed_report. simpl.
  destruct (performance_analysis 1 (responses s) (questions_asked s)) as [text|]; simpl.
  - split; [|split].
    + split; [discriminate|]. intros Hlt. exfalso.
      destruct Hnone as [_ Hnone]. specialize (Hnone ltac:(lia)). discriminate Hnone.
    + intros _. eauto.
    + apply lookup_insert_eq.
  - split; [|split].
    + split; [|reflexivity]. intros _. destruct Hnone as [Hnone _].
      specialize (Hnone eq_refl). lia.
    + intros Hle. exfalso. destruct Hnone as [Hnone _]. specialize (Hnone eq_refl). lia.
    + apply lookup_insert_eq.
Qed.

Lemma generate_final_report_outcome_witness :
  let iv := run [OpSubmit "s1" fifteen_words None 5; OpSubmit "s1" fifteen_words None 6]
                one_question_asked in
  (generate_final_report iv "s1" 9).1 = Raised IndexError
  /\ (generate_final_report iv "s2" 9).1 = Returned None.
Proof.
  cbv zeta.
  destruct (generate_final_report_outcome
              (run [OpSubmit "s1" fifteen_words None 5; OpSubmit "s1" fifteen_words None 6]
                   one_question_asked) "s1" 9) as [_ Hstored]; [reflexivity|].
  destruct (generate_final_report_outcome
              (run [OpSubmit "s1" fifteen_words None 5; OpSubmit "s1" fifteen_words None 6]
                   one_question_asked) "s2" 9) as [Hunknown _]; [reflexivity|].
  split.
  - eapply Hstored; [vm_compute; reflexivity | simpl; lia].
  - rewrite Hunknown; [reflexivity | vm_compute; reflexivity].
Defined.

(** A session with one question and two answers: the report raises. *)
Example generate_final_report_raises :
  let iv := run [OpSubmit "s1" fifteen_words None 5; OpSubmit "s1" fifteen_words None 6]
                one_question_asked in
  (generate_final_report iv "s1" 9).1 = Raised IndexError
  /\ (session_status <$> sessions (generate_final_report iv "s1" 9).2 !! "s1")
     = Some completed.
Proof. split; vm_compute; reflexivity. Qed.

Lemma percentage_at_least (k : Z) s :
  0 < k ->
  Qle_bool (k # 1) (overall_percentage s) = true <->
  0 < max_score s /\ k * max_score s <= 100 * total_score s.
Proof.
  intros Hk. rewrite Qle_bool_iff. unfold overall_percentage, Qle.
  destruct (Z.ltb_spec 0 (max_score s)) as [Hpos|Hneg]; simpl.
  - rewrite Pos2Z.inj_mul, Z2Pos.id by assumption. lia.
  - lia.
Qed.

(** Splits on a threshold test of the percentage, leaving the integer
    inequality it decides or its negation. *)
Ltac band_cases H :=
  match type of H with
  | Qle_bool ?k ?p = true <-> ?P =>
      destruct (Qle_bool k p);
      [ assert P by (apply H; reflexivity)
      | assert (~ P) by (intros HP; apply H in HP; discriminate HP) ];
      clear H
  end.

(** X12. The two ratings of a report agree with each other: a report
    rated Advanced recommends Strong Hire, one rated Intermediate
    recommends Hire or Strong Hire, one rated Basic recommends Consider
    or No Hire, and one rated Beginner recommends No Hire. *)
Theorem report_ratings_agree iv sid now rep iv' :
  generate_final_report iv sid now = (Returned (Some rep), iv') ->
  (proficiency_level rep = "Advanced"
   /\ recommendation rep = "Strong Hire - Excellent Excel skills demonstrated")
  \/ (proficiency_level rep = "Intermediate"
      /\ (recommendation rep = "Hire - Good Excel foundation with room for growth"
          \/ recommendation rep = "Strong Hire - Excellent Excel skills demonstrated"))
  \/ (proficiency_level rep = "Basic"
      /\ (recommendation rep = "Consider - Basic skills present, may need training"
          \/ recommendation rep
             = "No Hire - Insufficient Excel proficiency for role requirements"))
  \/ (proficiency_level rep = "Beginner"
      /\ recommendation rep
         = "No Hire - Insufficient Excel proficiency for role requirements").
Proof.
  unfold generate_final_report.
  destruct (sessions iv !! sid) as [s|]; [|discriminate].
  destruct (detailed_report _ _); [|discriminate].
  intros [= <- _]. simpl.
  unfold proficiency_of, _get_hiring_recommendation.
  pose proof (percentage_at_least 80 (complete s now) ltac:(lia)) as H80.
  pose proof (percentage_at_least 75 (complete s now) ltac:(lia)) as H75.
  pose proof (percentage_at_least 60 (complete s now) ltac:(lia)) as H60.
  pose proof (percentage_at_least 45 (complete s now) ltac:(lia)) as H45.
  pose proof (percentage_at_least 40 (complete s now) ltac:(lia)) as H40.
  simpl in H80, H75, H60, H45, H40.
  band_cases H80; band_cases H75; band_cases H60; band_cases H45; band_cases H40;
    try (exfalso; lia); tauto.
Qed.

Lemma report_ratings_agree_witness :
  exists rep,
    (generate_final_report one_question_asked "s1" 60000000).1 = Returned (Some rep)
    /\ proficiency_level rep = "Beginner"
    /\ recommendation rep
       = "No Hire - Insufficient Excel proficiency for role requirements".
Proof.
  destruct (generate_final_report one_question_asked "s1" 60000000)
    as [[[rep|]|e] iv'] eqn:Hcall; try (vm_compute in Hcall; discriminate Hcall).
  exists rep. split; [reflexivity|].
  destruct (report_ratings_agree one_question_asked "s1" 60000000 rep iv' Hcall)
    as [[Hp _] | [[Hp _] | [[Hp _] | H]]]; try exact H;
    exfalso; vm_compute in Hcall; injection Hcall as <- _; discriminate Hp.
Defined.

(** * Further properties of the fallback evaluator *)

Section KeywordLoop.

Variables question_lower response_lower : string.

Let hits (entry : string * list string) : Prop :=
  any_keyword_in entry.2 question_lower = true
  /\ any_keyword_in entry.2 response_lower = true.

(** The loop over the topics computes the comprehension. *)
Lemma keyword_fold_filter entries bonus found :
  fold_left (keyword_step question_lower response_lower) entries (bonus, found)
  = (bonus + 2 * Z.of_nat (length (filter hits entries)),
     found ++ (filter hits entries).*1).
Proof.
  revert bonus found. induction entries as [|[topic keywords] entries IH];
    intros bonus found; simpl.
  - rewrite app_nil_r. f_equal. lia.
  - rewrite filter_cons. destruct (decide (hits (topic, keywords))) as [[Hq Hr]|Hno].
    + simpl in Hq, Hr. rewrite Hq, Hr, IH. simpl. rewrite <- app_assoc. simpl.
      f_equal. lia.
    + assert ((if any_keyword_in keywords question_lower
               then if any_keyword_in keywords response_lower
                    then (bonus + 2, found ++ [topic]) else (bonus, found)
               else (bonus, found)) = (bonus, found)) as ->.
      { destruct (any_keyword_in keywords question_lower) eqn:Hq; [|reflexivity].
        destruct (any_keyword_in keywords response_lower) eqn:Hr; [|reflexivity].
        exfalso. apply Hno. split; assumption. }
      apply IH.
Qed.

Lemma keyword_scan_matching :
  keyword_scan question_lower response_lower
  = (2 * Z.of_nat (length (matching_topics question_lower response_lower)),
     matching_topics question_lower response_lower).
Proof.
  unfold keyword_scan, matching_topics. rewrite keyword_fold_filter.
  rewrite length_fmap. reflexivity.
Qed.

Lemma matching_topics_length :
  (length (matching_topics question_lower response_lower) <= 6)%nat.
Proof.
  unfold matching_topics. rewrite length_fmap.
  etransitivity; [apply length_filter|]. reflexivity.
Qed.

End KeywordLoop.

(** X13. The keyword bonus of the fallback evaluator is 2 points for each
    of the six topics that has a keyword in the question and a keyword
    in the response, both taken in lower case, so at most 12. The score
    is the base score plus this bonus, capped at the points of the
    question: it never exceeds [max(1, words // 5) + 12], and a response
    that shares no topic with the question gets the base score. *)
Theorem fallback_keyword_bonus response q :
  let topics :=
    matching_topics (Text.lower (question_text q)) (Text.lower response) in
  let base := Z.min (points q) (Z.max 1 (word_count response / 5)) in
  (length topics <= 6)%nat
  /\ score (evaluate_response_fallback response q)
     = Z.min (points q) (base + 2 * Z.of_nat (length topics))
  /\ score (evaluate_response_fallback response q) <= Z.max 1 (word_count response / 5) + 12
  /\ (topics = [] -> score (evaluate_response_fallback response q) = base).
Proof.
  cbv zeta.
  pose proof (matching_topics_length (Text.lower (question_text q)) (Text.lower response))
    as Hsix.
  rewrite fallback_score, keyword_scan_matching. simpl.
  split; [assumption|]. split; [reflexivity|]. split; [lia|].
  intros ->. simpl. lia.
Qed.

Lemma fallback_keyword_bonus_witness :
  score (evaluate_response_fallback "" vlookup_question) = Z.min 20 (Z.max 1 (0 / 5)).
Proof.
  destruct (fallback_keyword_bonus "" vlookup_question) as (_ & _ & _ & H).
  apply H. reflexivity.
Defined.

(** X14. The advice of the fallback evaluator is never empty: it always
    names a strength and an improvement. It asks for more detail exactly
    when the response has fewer than 20 words, for more terminology
    exactly when the response shares no topic with the question, and for
    practical examples exactly when neither applies. *)
Theorem fallback_advice response q :
  let ev := evaluate_response_fallback response q in
  let topics :=
    matching_topics (Text.lower (question_text q)) (Text.lower response) in
  strengths ev <> []
  /\ improvements ev <> []
  /\ ("Provide more detailed explanations" ∈ improvements ev
      <-> word_count response < 20)
  /\ ("Include more technical terminology" ∈ improvements ev <-> topics = [])
  /\ ("Consider adding practical examples" ∈ improvements ev
      <-> 20 <= word_count response /\ topics <> []).
Proof.
  cbv zeta. unfold evaluate_response_fallback. rewrite keyword_scan_matching.
  fold (word_count response).
  set (topics := matching_topics _ _).
  destruct (4 * points q <=? _); [|destruct (3 * points q <=? _)];
    (destruct (Z.ltb_spec (word_count response) 20);
     destruct (decide (topics = [])); simpl;
     (split; [discriminate|]); (split; [discriminate|]);
     rewrite ?elem_of_cons, ?elem_of_nil;
     repeat split; intros; try lia; try tauto; try (intuition discriminate)).
Qed.

(** ** Letter case *)

Lemma is_space_lower_char c : Text.is_space (Text.lower_char c) = Text.is_space c.
Proof. destruct c as [[] [] [] [] [] [] [] []]; reflexivity. Qed.

Lemma lower_char_idempotent c : Text.lower_char (Text.lower_char c) = Text.lower_char c.
Proof. destruct c as [[] [] [] [] [] [] [] []]; reflexivity. Qed.

Lemma lower_idempotent s : Text.lower (Text.lower s) = Text.lower s.
Proof. induction s as [|c s IH]; simpl; [|rewrite lower_char_idempotent, IH]; reflexivity. Qed.

Lemma lower_append a b : Text.lower (a +:+ b) = Text.lower a +:+ Text.lower b.
Proof. induction a as [|c a IH]; simpl; [|rewrite IH]; reflexivity. Qed.

Lemma lower_empty s : Text.lower s = "" <-> s = "".
Proof. destruct s; simpl; split; congruence. Qed.

Lemma split_from_lower s w :
  Text.split_from (Text.lower s) (Text.lower w) = Text.lower <$> Text.split_from s w.
Proof.
  revert w. induction s as [|c s IH]; intros w; simpl.
  - destruct (decide (w = "")) as [->|Hw]; [reflexivity|].
    destruct (decide (Text.lower w = "")) as [He|_]; [|reflexivity].
    apply (proj1 (lower_empty w)) in He. contradiction.
  - rewrite is_space_lower_char. destruct (Text.is_space c).
    + destruct (decide (w = "")) as [->|Hw]; simpl.
      * apply (IH "").
      * destruct (decide (Text.lower w = "")) as [He|_];
          [apply (proj1 (lower_empty w)) in He; contradiction|].
        simpl. f_equal. apply (IH "").
    + rewrite <- IH, lower_append. reflexivity.
Qed.

Lemma word_count_lower s : word_count (Text.lower s) = word_count s.
Proof.
  unfold word_count, Text.split.
  change "" with (Text.lower "") at 1. rewrite split_from_lower, length_fmap. reflexivity.
Qed.

(** X15. The fallback evaluator ignores letter case: two responses that
    are equal in lower case get the same evaluation, also against two
    questions whose texts are equal in lower case and which are worth
    the same points. *)
Theorem fallback_ignores_case response1 response2 q1 q2 :
  Text.lower response1 = Text.lower response2 ->
  Text.lower (question_text q1) = Text.lower (question_text q2) ->
  points q1 = points q2 ->
  evaluate_response_fallback response1 q1 = evaluate_response_fallback response2 q2.
Proof.
  intros Hr Hq Hp.
  assert (word_count response1 = word_count response2) as Hwc
    by (rewrite <- (word_count_lower response1), <- (word_count_lower response2), Hr;
        reflexivity).
  unfold evaluate_response_fallback. fold (word_count response1) (word_count response2).
  rewrite Hr, Hq, Hp, Hwc. reflexivity.
Qed.

Lemma fallback_ignores_case_witness :
  evaluate_response_fallback "I USE VLOOKUP with a Table" vlookup_question
  = evaluate_response_fallback "i use vlookup WITH a table" vlookup_question.
Proof.
  apply fallback_ignores_case; reflexivity.
Defined.

(** * The routes *)

(** ** How the engine calls end *)

Lemma evaluate_response_cases iv sid response reply now :
  ((sessions iv !! sid = None
    \/ exists s, sessions iv !! sid = Some s /\ questions_asked s = [])
   /\ (evaluate_response iv sid response reply now).1 = (None, iv))
  \/ (exists s current,
        sessions iv !! sid = Some s
        /\ last (questions_asked s) = Some current
        /\ word_count response < min_response_length (interviewer_config iv)
        /\ (evaluate_response iv sid response reply now).1
           = (Some (too_short (interviewer_config iv)), iv))
  \/ (exists s current ev,
        sessions iv !! sid = Some s
        /\ last (questions_asked s) = Some current
        /\ min_response_length (interviewer_config iv) <= word_count response
        /\ (groq_client iv = false \/ reply = None ->
            ev = evaluate_response_fallback response current)
        /\ (evaluate_response iv sid response reply now).1
           = (Some ev,
              with_sessions iv
                (<[sid := record_answer s current response ev now]> (sessions iv)))).
Proof.
  unfold evaluate_response.
  destruct (sessions iv !! sid) as [s|] eqn:Hs; [|left; split; [left|]; reflexivity].
  destruct (last (questions_asked s)) as [current|] eqn:Hlast;
    [|left; split; [right; exists s; split; [reflexivity | by apply last_None]
                   |reflexivity]].
  fold (word_count response).
  destruct (Z.ltb_spec (word_count response) (min_response_length (interviewer_config iv))).
  - right. left. exists s, current. repeat split; assumption.
  - right. right. exists s, current.
    unfold evaluate_response_with_groq.
    destruct (groq_client iv); [destruct reply as [ev|]|];
      simpl; eexists; (split; [reflexivity|]); (split; [exact Hlast|]);
      (split; [assumption|]); (split; [|reflexivity]);
      try (intros [H0|H0]; discriminate H0); intros _; reflexivity.
Qed.

Lemma generate_final_report_cases iv sid now :
  (sessions iv !! sid = None /\ generate_final_report iv sid now = (Returned None, iv))
  \/ exists s,
       sessions iv !! sid = Some s
       /\ (generate_final_report iv sid now).2
          = with_sessions iv (<[sid := complete s now]> (sessions iv))
       /\ (((length (responses s) <= length (questions_asked s))%nat
            /\ exists rep, (generate_final_report iv sid now).1 = Returned (Some rep))
           \/ ((length (questions_asked s) < length (responses s))%nat
               /\ (generate_final_report iv sid now).1 = Raised IndexError)).
Proof.
  unfold generate_final_report.
  destruct (sessions iv !! sid) as [s|] eqn:Hs; [|left; split; reflexivity].
  right. exists s. split; [reflexivity|].
  pose proof (performance_analysis_None 1 (responses s) (questions_asked s)
                ltac:(lia) ltac:(simpl; lia)) as Hnone.
  unfold detailed_report. simpl.
  destruct (performance_analysis 1 (responses s) (questions_asked s)) as [text|]; simpl.
  - split; [reflexivity|]. left. split; [|eauto].
    destruct (le_lt_dec (length (responses s)) (length (questions_asked s))) as [|Hlt];
      [assumption|].
    destruct Hnone as [_ Hnone]. specialize (Hnone ltac:(lia)). discriminate Hnone.
  - split; [reflexivity|]. right. split; [|reflexivity].
    destruct Hnone as [Hnone _]. specialize (Hnone eq_refl). lia.
Qed.

(** ** Blank text *)

Lemma append_not_empty w c : w +:+ String c "" <> "".
Proof. destruct w; discriminate. Qed.

Lemma split_from_nil s w : Text.split_from s w = [] <-> w = "" /\ lstrip s = "".
Proof.
  revert w. induction s as [|c s IH]; intros w; simpl.
  - destruct (decide (w = "")); split; intros H; try tauto; try discriminate.
  - destruct (Text.is_space c).
    + destruct (decide (w = "")) as [->|Hw].
      * rewrite IH. tauto.
      * split; [discriminate|]. intros [? _]. contradiction.
    + rewrite IH. split.
      * intros [Happ _]. by apply append_not_empty in Happ.
      * intros [_ H]. discriminate H.
Qed.

Lemma rstrip_empty t : rstrip t = "" <-> lstrip t = "".
Proof.
  induction t as [|c t IH]; simpl; [tauto|].
  destruct (Text.is_space c); simpl.
  - destruct (bool_decide_reflect (rstrip t = "")) as [He|Hne].
    + split; [intros _; by apply IH | reflexivity].
    + split; [discriminate|]. intros H. apply IH in H. contradiction.
  - split; discriminate.
Qed.

Lemma lstrip_idempotent s : lstrip (lstrip s) = lstrip s.
Proof.
  induction s as [|c s IH]; simpl; [reflexivity|].
  destruct (Text.is_space c) eqn:Hc; [assumption|]. simpl. rewrite Hc. reflexivity.
Qed.

Lemma split_from_lstrip s : Text.split_from (lstrip s) "" = Text.split_from s "".
Proof.
  induction s as [|c s IH]; simpl; [reflexivity|].
  destruct (Text.is_space c) eqn:Hc; simpl; [assumption|]. rewrite Hc. reflexivity.
Qed.

Lemma split_from_rstrip t w : Text.split_from (rstrip t) w = Text.split_from t w.
Proof.
  revert w. induction t as [|c t IH]; intros w; simpl; [reflexivity|].
  destruct (Text.is_space c) eqn:Hc; simpl.
  - destruct (bool_decide_reflect (rstrip t = "")) as [He|Hne]; simpl.
    + assert (Text.split_from t "" = []) as ->.
      { rewrite <- IH, He. reflexivity. }
      reflexivity.
    + rewrite Hc, !IH. reflexivity.
  - rewrite Hc. apply IH.
Qed.

Lemma split_strip s : Text.split (strip s) = Text.split s.
Proof. unfold Text.split, strip. rewrite split_from_rstrip. apply split_from_lstrip. Qed.

Lemma strip_empty s : strip s = "" <-> word_count s = 0.
Proof.
  unfold strip, word_count, Text.split. rewrite rstrip_empty, lstrip_idempotent.
  split.
  - intros H. assert (Text.split_from s "" = []) as -> by (apply split_from_nil; tauto).
    reflexivity.
  - intros H. apply (proj1 (split_from_nil s "")).
    destruct (Text.split_from s ""); [reflexivity | simpl in H; lia].
Qed.

Lemma word_count_strip s : word_count (strip s) = word_count s.
Proof. unfold word_count. rewrite split_strip. reflexivity. Qed.

(** ** Rejected requests *)

Lemma submit_answer_bad_request iv sid response reply now r now' :
  (status_code (submit_answer iv sid response reply now r now').1 = 400 <->
   sessions iv !! sid = None
   \/ exists s, sessions iv !! sid = Some s /\ questions_asked s = [])
  /\ (status_code (submit_answer iv sid response reply now r now').1 = 400 ->
      (submit_answer iv sid response reply now r now').2 = iv).
Proof.
  unfold submit_answer.
  assert (forall ev iv1,
            status_code
              (let '(next_question, iv2) := get_next_question iv1 sid r in
               match next_question with
               | Some _ =>
                   (Ok {| submit_evaluation := ev;
                          submit_next_question := next_question;
                          submit_final_report := None;
                          submit_interview_complete := false |}, iv2)
               | None =>
                   match generate_final_report iv2 sid now' with
                   | (Returned rep, iv3) =>
                       (Ok {| submit_evaluation := ev;
                              submit_next_question := next_question;
                              submit_final_report := Some rep;
                              submit_interview_complete := true |}, iv3)
                   | (Raised e, iv3) => (Failed (EngineError e), iv3)
                   end
               end).1 <> 400) as Hcode.
  { intros ev iv1. destruct (get_next_question iv1 sid r) as [[v|] iv2]; [discriminate|].
    destruct (generate_final_report iv2 sid now') as [[rep|e] iv3]; discriminate. }
  destruct (evaluate_response_cases iv sid response reply now)
    as [[Hwhy He] | [(s & current & Hs & Hlast & _ & He)
                    | (s & current & ev & Hs & Hlast & _ & _ & He)]];
    destruct (evaluate_response iv sid response reply now) as [[evaluation iv1] calls];
    simpl in He; injection He as -> ->.
  - simpl. split; [|reflexivity]. split; [intros _; exact Hwhy | reflexivity].
  - split; [|intros H; by apply Hcode in H]. split; [intros H; by apply Hcode in H|].
    intros [H | (s0 & Hs0 & Hnil)]; [congruence|].
    assert (s0 = s) as -> by congruence. rewrite Hnil in Hlast. discriminate Hlast.
  - split; [|intros H; by apply Hcode in H]. split; [intros H; by apply Hcode in H|].
    intros [H | (s0 & Hs0 & Hnil)]; [congruence|].
    assert (s0 = s) as -> by congruence. rewrite Hnil in Hlast. discriminate Hlast.
Qed.

(** X16. [submit_response] answers with status 400 exactly when the body
    is a JSON object whose response is absent or a string, and the
    session identifier is absent, null or otherwise false, or the
    response has no word, or the identifier is a string that names no
    stored session or a session that has not been asked a question, or it
    is a number or [true]. Whenever the answer is 400 the engine is left
    as it was. A response that has words but too few of them is not among
    these cases. A request without a JSON object, or one whose response is
    not a string (null included), is answered with status 500. *)
Theorem submit_response_bad_request iv body reply now r now' :
  let answer := submit_response iv body reply now r now' in
  (status_code answer.1 = 400 <->
   exists data text,
     body = Some data
     /\ data_get_default (json_response data) = JString text
     /\ (truthy (data_get (json_session_id data)) = false
         \/ word_count text = 0
         \/ match data_get (json_session_id data) with
            | JString sid =>
                sessions iv !! sid = None
                \/ exists s, sessions iv !! sid = Some s /\ questions_asked s = []
            | v => hashable v = true
            end))
  /\ (status_code answer.1 = 400 -> answer.2 = iv)
  /\ (body = None
      \/ (exists data, body = Some data
                       /\ forall text, data_get_default (json_response data) <> JString text) ->
      status_code answer.1 = 500 /\ answer.2 = iv).
Proof.
  cbv zeta. unfold submit_response.
  destruct body as [data|]; cycle 1.
  { simpl. split; [|split]; [split| |].
    - discriminate.
    - intros (data & text & H & _). discriminate H.
    - discriminate.
    - intros _. split; reflexivity. }
  assert (forall Q : Prop,
            forall text,
            data_get_default (json_response data) = JString text ->
            (Some data = None
             \/ (exists data0, Some data = Some data0
                               /\ forall text0,
                                    data_get_default (json_response data0) <> JString text0)) ->
            Q) as Hobject.
  { intros Q text Htext [H | (data0 & [= <-] & H)]; [discriminate|].
    exfalso. by apply (H text). }
  destruct (data_get_default (json_response data)) as [| b | z | text | e | e] eqn:Hresponse;
    try (simpl; split; [|split]; [split| |];
         [ discriminate
         | intros (data0 & text & [= <-] & H & _); congruence
         | discriminate
         | intros _; split; reflexivity ]).
  specialize (Hobject) with (text := text).
  pose proof (strip_empty text) as Hblank.
  destruct (decide (truthy (data_get (json_session_id data)) = false \/ strip text = ""))
    as [Hbad|Hok].
  { simpl. split; [|split]; [split| |].
    - intros _. exists data, text. rewrite Hresponse. repeat split. tauto.
    - reflexivity.
    - reflexivity.
    - intros H. by apply Hobject. }
  assert (forall P : request_json -> Prop,
            (exists data0 text0,
               Some data = Some data0
               /\ data_get_default (json_response data0) = JString text0
               /\ (truthy (data_get (json_session_id data0)) = false
                   \/ word_count text0 = 0 \/ P data0)) ->
            P data) as Hback.
  { intros P (data0 & text0 & [= <-] & Htext & H).
    rewrite Hresponse in Htext. injection Htext as <-. tauto. }
  destruct (data_get (json_session_id data)) as [| b | z | sid | e | e] eqn:Hsid;
    simpl in Hok.
  - tauto.
  - destruct b; [|tauto]. simpl. split; [|split].
    + split; [|reflexivity].
      intros _. exists data, text. rewrite Hsid, Hresponse. tauto.
    + reflexivity.
    + intros H. by apply Hobject.
  - destruct z; [tauto|]. simpl. split; [|split].
    + split; [|reflexivity].
      intros _. exists data, text. rewrite Hsid, Hresponse. tauto.
    + reflexivity.
    + intros H. by apply Hobject.
  - destruct (submit_answer_bad_request iv sid (strip text) reply now r now')
      as [Hcode Hsame].
    split; [|split; [exact Hsame | intros H; by apply Hobject]].
    rewrite Hcode. split.
    + intros H. exists data, text. rewrite Hsid, Hresponse. tauto.
    + intros H.
      apply (Hback (fun d => match data_get (json_session_id d) with
                             | JString sid0 =>
                                 sessions iv !! sid0 = None
                                 \/ exists s, sessions iv !! sid0 = Some s
                                              /\ questions_asked s = []
                             | v => hashable v = true
                             end)) in H.
      rewrite Hsid in H. exact H.
  - destruct e; [tauto|]. simpl. split; [|split].
    + split; [discriminate|]. intros H.
      apply (Hback (fun d => match data_get (json_session_id d) with
                             | JString sid0 =>
                                 sessions iv !! sid0 = None
                                 \/ exists s, sessions iv !! sid0 = Some s
                                              /\ questions_asked s = []
                             | v => hashable v = true
                             end)) in H.
      rewrite Hsid in H. discriminate H.
    + discriminate.
    + intros H. by apply Hobject.
  - destruct e; [tauto|]. simpl. split; [|split].
    + split; [discriminate|]. intros H.
      apply (Hback (fun d => match data_get (json_session_id d) with
                             | JString sid0 =>
                                 sessions iv !! sid0 = None
                                 \/ exists s, sessions iv !! sid0 = Some s
                                              /\ questions_asked s = []
                             | v => hashable v = true
                             end)) in H.
      rewrite Hsid in H. discriminate H.
    + discriminate.
    + intros H. by apply Hobject.
Qed.

Lemma submit_response_bad_request_witness :
  status_code (submit_response one_question_asked
                 (Some {| json_session_id := Some (JString "s1");
                          json_response := Some JNull |}) None 5 0 6).1 = 500
  /\ status_code (submit_response one_question_asked (post "s2" "an answer") None 5 0 6).1
     = 400.
Proof.
  split.
  - apply (submit_response_bad_request one_question_asked
             (Some {| json_session_id := Some (JString "s1");
                      json_response := Some JNull |}) None 5 0%nat 6).
    right. eexists. split; [reflexivity|]. intros text. discriminate.
  - apply (submit_response_bad_request one_question_asked (post "s2" "an answer")
             None 5 0%nat 6).
    eexists _, _. split; [reflexivity|]. split; [reflexivity|].
    right. right. left. reflexivity.
Defined.

(** ** Accepted answers *)

(** A request whose two keys are strings, of which the identifier is not
    empty and the response has a word, reaches the evaluation. *)
Lemma submit_response_strings iv data sid text reply now r now' :
  json_session_id data = Some (JString sid) ->
  json_response data = Some (JString text) ->
  sid <> "" ->
  word_count text <> 0 ->
  submit_response iv (Some data) reply now r now'
  = submit_answer iv sid (strip text) reply now r now'.
Proof.
  intros Hsid Htext Hid Hwords. unfold submit_response. rewrite Hsid, Htext. simpl.
  destruct (decide _) as [[Hbad|Hbad]|_]; [| |reflexivity].
  - apply negb_false_iff, bool_decide_eq_true in Hbad. contradiction.
  - apply strip_empty in Hbad. contradiction.
Qed.

Lemma with_sessions_same iv sid s :
  sessions iv !! sid = Some s ->
  with_sessions iv (<[sid := s]> (sessions iv)) = iv.
Proof. intros Hs. rewrite insert_id by exact Hs. by destruct iv. Qed.

(** The outcomes of [submit_response] once the request has reached the
    evaluation, for a stored session with a question asked: [s1] is the
    session and [iv1] the engine once the response was evaluated. *)
Lemma submit_answer_outcome iv sid response reply now r now' s current :
  sessions iv !! sid = Some s ->
  last (questions_asked s) = Some current ->
  exists s1 ev iv1,
    ((s1 = s /\ ev = too_short (interviewer_config iv)
      /\ word_count response < min_response_length (interviewer_config iv))
     \/ (s1 = record_answer s current response ev now
         /\ min_response_length (interviewer_config iv) <= word_count response
         /\ (groq_client iv = false \/ reply = None ->
             ev = evaluate_response_fallback response current)))
    /\ iv1 = with_sessions iv (<[sid := s1]> (sessions iv))
    /\ ((exists v level q,
           session_status s1 = active
           /\ q ∈ questions iv
           /\ submit_answer iv sid response reply now r now'
              = (Ok {| submit_evaluation := ev;
                       submit_next_question := Some v;
                       submit_final_report := None;
                       submit_interview_complete := false |},
                 with_sessions iv (<[sid := ask s1 level q]> (sessions iv))))
        \/ ((length (responses s1) <= length (questions_asked s1))%nat
            /\ exists rep,
                 (generate_final_report iv1 sid now').1 = Returned (Some rep)
                 /\ submit_answer iv sid response reply now r now'
                    = (Ok {| submit_evaluation := ev;
                             submit_next_question := None;
                             submit_final_report := Some (Some rep);
                             submit_interview_complete := true |},
                       with_sessions iv (<[sid := complete s1 now']> (sessions iv))))
        \/ ((length (questions_asked s1) < length (responses s1))%nat
            /\ submit_answer iv sid response reply now r now'
               = (Failed (EngineError IndexError),
                  with_sessions iv (<[sid := complete s1 now']> (sessions iv))))).
Proof.
  intros Hs Hlast. unfold submit_answer.
  (* the session after the evaluation, and the engine that holds it *)
  assert (exists s1 ev iv1,
            ((s1 = s /\ ev = too_short (interviewer_config iv)
              /\ word_count response < min_response_length (interviewer_config iv))
             \/ (s1 = record_answer s current response ev now
                 /\ min_response_length (interviewer_config iv) <= word_count response
                 /\ (groq_client iv = false \/ reply = None ->
                     ev = evaluate_response_fallback response current)))
            /\ iv1 = with_sessions iv (<[sid := s1]> (sessions iv))
            /\ (evaluate_response iv sid response reply now).1 = (Some ev, iv1)
            /\ sessions iv1 !! sid = Some s1
            /\ interviewer_config iv1 = interviewer_config iv
            /\ questions iv1 = questions iv
            /\ forall final,
                 with_sessions iv1 (<[sid := final]> (sessions iv1))
                 = with_sessions iv (<[sid := final]> (sessions iv)))
    as (s1 & ev & iv1 & Hs1 & Hiv1 & He & Hlook & Hcfg & Hbank & Hstore).
  { destruct (evaluate_response_cases iv sid response reply now)
      as [[[Hnone | (s0 & Hs0 & Hnil)] _]
         | [(s0 & c0 & Hs0 & Hlast0 & Hshort & He)
           | (s0 & c0 & ev & Hs0 & Hlast0 & Hlong & Hfallback & He)]].
    - congruence.
    - assert (s0 = s) as -> by congruence. rewrite Hnil in Hlast. discriminate Hlast.
    - assert (s0 = s) as -> by congruence.
      exists s, (too_short (interviewer_config iv)), iv.
      split; [left; tauto|]. rewrite (with_sessions_same iv sid s Hs).
      repeat split; assumption.
    - assert (s0 = s) as -> by congruence. assert (c0 = current) as -> by congruence.
      eexists _, ev, _. split; [right; split; [reflexivity | tauto]|].
      split; [reflexivity|]. split; [exact He|]. simpl. rewrite lookup_insert_eq.
      repeat split. intros final. rewrite insert_insert_eq. reflexivity. }
  exists s1, ev, iv1. split; [exact Hs1|]. split; [exact Hiv1|]. clear Hiv1.
  destruct (evaluate_response iv sid response reply now) as [[evaluation iv1'] calls].
  simpl in He. injection He as -> ->.
  destruct (get_next_question_cases iv1 sid r)
    as [Hnext | (s0 & first & rest & Hs0 & Hactive & Havail & _ & Hnext)].
  - rewrite Hnext.
    destruct (generate_final_report_cases iv1 sid now')
      as [[Hnone _] | (s0 & Hs0 & Hstate & [[Hle (rep & Hrep)] | [Hlt Hraise]])];
      [congruence | |]; assert (s0 = s1) as -> by congruence;
      destruct (generate_final_report iv1 sid now') as [outcome iv3];
      simpl in Hstate; subst iv3; rewrite Hstore.
    + simpl in Hrep. subst outcome. right. left. split; [assumption|].
      exists rep. split; reflexivity.
    + simpl in Hraise. subst outcome. right. right. split; [assumption | reflexivity].
  - cbv zeta in Hnext. rewrite Hnext. assert (s0 = s1) as -> by congruence.
    left. eexists _, _, _. split; [assumption|]. rewrite Hstore, Hcfg.
    split; [|reflexivity].
    assert (first ∈ first :: rest) as Hfirst by left.
    pose proof (select_question_available s1 r first (first :: rest) Hfirst) as Hq.
    rewrite <- Havail in Hq at 2. apply elem_of_available_questions in Hq.
    rewrite <- Hbank. tauto.
Qed.

(** X17. In an engine without a remote client, a response that has
    words, but fewer than the minimum, is answered with status 200 and
    the zero-score evaluation, and is not stored; the interview moves on
    all the same: the session is asked its next question, or, when there
    is none, it is completed and the reply carries the final report, the
    one [generate_final_report] gives for the session as it was. *)
Theorem submit_response_too_short_moves_on iv data sid text reply now r now' s :
  json_session_id data = Some (JString sid) ->
  json_response data = Some (JString text) ->
  sid <> "" ->
  groq_client iv = false ->
  sessions iv !! sid = Some s ->
  questions_asked s <> [] ->
  (length (responses s) <= length (questions_asked s))%nat ->
  0 < word_count text < min_response_length (interviewer_config iv) ->
  exists body s',
    submit_response iv (Some data) reply now r now'
    = (Ok body, with_sessions iv (<[sid := s']> (sessions iv)))
    /\ submit_evaluation body = too_short (interviewer_config iv)
    /\ responses s' = responses s
    /\ total_score s' = total_score s
    /\ ((exists q, submit_interview_complete body = false
                   /\ is_Some (submit_next_question body)
                   /\ submit_final_report body = None
                   /\ questions_asked s' = questions_asked s ++ [q]
                   /\ session_status s' = active)
        \/ (exists rep,
              submit_interview_complete body = true
              /\ submit_next_question body = None
              /\ submit_final_report body = Some (Some rep)
              /\ (generate_final_report iv sid now').1 = Returned (Some rep)
              /\ questions_asked s' = questions_asked s
              /\ session_status s' = completed)).
Proof.
  intros Hsid Htext Hid _ Hs Hasked Hle Hwords.
  rewrite (submit_response_strings iv data sid text reply now r now' Hsid Htext Hid)
    by lia.
  destruct (last (questions_asked s)) as [current|] eqn:Hlast;
    [|apply last_None in Hlast; contradiction].
  destruct (submit_answer_outcome iv sid (strip text) reply now r now' s current Hs Hlast)
    as (s1 & ev & iv1 & [(-> & -> & _) | (_ & Hlong & _)] & Hiv1 & Hout);
    [|rewrite word_count_strip in Hlong; lia].
  rewrite (with_sessions_same iv sid s Hs) in Hiv1. subst iv1.
  destruct Hout as [(v & level & q & Hactive & _ & ->)
                   | [(_ & rep & Hrep & ->) | (Hlt & _)]]; [| |lia].
  - eexists _, _. split; [reflexivity|]. simpl. repeat split.
    left. exists q. repeat split; [eauto | assumption].
  - eexists _, _. split; [reflexivity|]. simpl. repeat split.
    right. exists rep. repeat split. exact Hrep.
Qed.

Lemma submit_response_too_short_moves_on_witness :
  exists body s',
    submit_response one_question_asked (post "s1" " too short ") None 5 0 6
    = (Ok body,
       with_sessions one_question_asked (<["s1" := s']> (sessions one_question_asked)))
    /\ submit_evaluation body = too_short default_config
    /\ responses s' = [].
Proof.
  destruct (submit_response_too_short_moves_on one_question_asked
              {| json_session_id := Some (JString "s1");
                 json_response := Some (JString " too short ") |}
              "s1" " too short " None 5 0%nat 6
              (ask (new_session "s1" 0) 1 vlookup_question))
    as (body & s' & Hcall & Hev & Hresp & _).
  - reflexivity.
  - reflexivity.
  - discriminate.
  - reflexivity.
  - vm_compute. reflexivity.
  - discriminate.
  - simpl. lia.
  - vm_compute. split; reflexivity.
  - exists body, s'. repeat split; assumption.
Defined.

(** X18. In an engine without a remote client, for a completed session
    that already has an answer to each of its questions, a further answer
    of sufficient length is still evaluated by the fallback evaluator and
    stored, and the request then fails with status 500: the report raises
    [IndexError]. *)
Theorem submit_response_after_completion iv data sid text reply now r now' s :
  json_session_id data = Some (JString sid) ->
  json_response data = Some (JString text) ->
  sid <> "" ->
  groq_client iv = false ->
  sessions iv !! sid = Some s ->
  session_status s = completed ->
  questions_asked s <> [] ->
  (length (questions_asked s) <= length (responses s))%nat ->
  0 < word_count text ->
  min_response_length (interviewer_config iv) <= word_count text ->
  exists current,
    let ev := evaluate_response_fallback (strip text) current in
    last (questions_asked s) = Some current
    /\ submit_response iv (Some data) reply now r now'
       = (Failed (EngineError IndexError),
          with_sessions iv
            (<[sid := complete (record_answer s current (strip text) ev now) now']>
               (sessions iv)))
    /\ status_code (submit_response iv (Some data) reply now r now').1 = 500.
Proof.
  intros Hsid Htext Hid Hclient Hs Hdone Hasked Hle Hwords Hlong.
  rewrite (submit_response_strings iv data sid text reply now r now' Hsid Htext Hid)
    by lia.
  destruct (last (questions_asked s)) as [current|] eqn:Hlast;
    [|apply last_None in Hlast; contradiction].
  destruct (submit_answer_outcome iv sid (strip text) reply now r now' s current Hs Hlast)
    as (s1 & ev & iv1 & [(_ & _ & Hshort) | (-> & _ & Hev)] & _ & Hout);
    [rewrite word_count_strip in Hshort; lia|].
  rewrite (Hev (or_introl Hclient)) in Hout.
  exists current. cbv zeta. split; [reflexivity|].
  destruct Hout as [(v & level & q & Hactive & _) | [(Hle' & _) | (_ & ->)]].
  - simpl in Hactive. congruence.
  - simpl in Hle'. rewrite length_app in Hle'. simpl in Hle'. lia.
  - split; reflexivity.
Qed.

Lemma submit_response_after_completion_witness :
  (submit_response
     (run [OpSubmit "s1" fifteen_words None 5; OpReport "s1" 6] one_question_asked)
     (post "s1" fifteen_words) None 7 0 8).1
  = Failed (EngineError IndexError).
Proof.
  destruct (submit_response_after_completion
              (run [OpSubmit "s1" fifteen_words None 5; OpReport "s1" 6] one_question_asked)
              {| json_session_id := Some (JString "s1");
                 json_response := Some (JString fifteen_words) |}
              "s1" fifteen_words None 7 0%nat 8
              (complete
                 (record_answer (ask (new_session "s1" 0) 1 vlookup_question)
                    vlookup_question fifteen_words
                    (evaluate_response_fallback fifteen_words vlookup_question) 5) 6))
    as (current & _ & Hcall & _).
  - reflexivity.
  - reflexivity.
  - discriminate.
  - reflexivity.
  - vm_compute. reflexivity.
  - reflexivity.
  - discriminate.
  - simpl. lia.
  - vm_compute. reflexivity.
  - vm_compute. discriminate.
  - unfold post. rewrite Hcall. reflexivity.
Defined.

(** ** An active interview is served without failure *)

Lemma submit_answer_not_asked iv sid response reply now r now' :
  sessions iv !! sid = None
  \/ (exists s, sessions iv !! sid = Some s /\ questions_asked s = []) ->
  exists error, submit_answer iv sid response reply now r now' = (Err 400 error, iv).
Proof.
  intros Hwhy. unfold submit_answer.
  rewrite evaluate_response_rejects by exact Hwhy. eauto.
Qed.

Lemma submit_answer_answers_in_step iv sid response reply now r now' :
  all_in_step iv -> all_in_step (submit_answer iv sid response reply now r now').2.
Proof.
  unfold all_in_step. intros Hinv.
  destruct (sessions iv !! sid) as [s|] eqn:Hs;
    [|destruct (submit_answer_not_asked iv sid response reply now r now') as [e ->];
      [left; assumption | assumption]].
  destruct (last (questions_asked s)) as [current|] eqn:Hlast;
    [|destruct (submit_answer_not_asked iv sid response reply now r now') as [e ->];
      [right; exists s; split; [assumption | by apply last_None] | assumption]].
  pose proof (Hinv sid s Hs) as Hstep.
  destruct (submit_answer_outcome iv sid response reply now r now' s current Hs Hlast)
    as (s1 & ev & iv1 & Hs1 & _ & [(v & level & q & Hactive & _ & ->)
                                  | [(_ & rep & _ & ->) | (_ & ->)]]); simpl;
    (apply map_Forall_insert_2; [|assumption]); unfold answers_in_step; simpl;
    [|exact I|exact I].
  unfold answers_in_step in Hstep. rewrite Hactive. left.
  assert (questions_asked s <> []) as Hasked by (intros E; rewrite E in Hlast; discriminate).
  destruct Hs1 as [(-> & _) | (-> & _)]; simpl in *; rewrite Hactive in Hstep;
    rewrite ?length_app; simpl; destruct Hstep as [Hlt | [_ Hnil]];
    try contradiction; try lia.
Qed.

Lemma serve_answers_in_step iv req : all_in_step iv -> all_in_step (serve iv req).
Proof.
  intros Hinv.
  destruct req as [uuid now r | body reply now r now' | body now]; simpl.
  - unfold all_in_step in *. unfold start_interview. simpl.
    set (iv1 := with_sessions iv (<[uuid := new_session uuid now]> (sessions iv))).
    assert (all_in_step iv1) as Hinv1.
    { unfold all_in_step. simpl. apply map_Forall_insert_2; [|assumption].
      right. split; reflexivity. }
    destruct (get_next_question_cases iv1 uuid r)
      as [-> | (s & first & rest & Hs & Hactive & _ & _ & Hnext)]; [assumption|].
    cbv zeta in Hnext. rewrite Hnext. simpl. unfold all_in_step in Hinv1.
    apply map_Forall_insert_2; [|assumption].
    simpl in Hs. rewrite lookup_insert_eq in Hs. injection Hs as <-.
    left. simpl. lia.
  - unfold submit_response. destruct body as [data|]; [|assumption].
    destruct (data_get_default (json_response data)); try assumption.
    destruct (decide _) as [_|_]; [assumption|].
    destruct (data_get (json_session_id data)); try assumption.
    by apply submit_answer_answers_in_step.
  - unfold get_report. destruct body as [data|]; [|assumption].
    destruct (decide _) as [_|_]; [assumption|].
    destruct (data_get (json_session_id data)) as [| b | z | sid | e | e]; try assumption.
    unfold all_in_step in *.
    destruct (generate_final_report_cases iv sid now)
      as [[_ ->] | (s & Hs & Hstate & _)]; [assumption|].
    destruct (generate_final_report iv sid now) as [[[rep|]|e] iv1];
      simpl in Hstate; subst iv1; simpl;
      (apply map_Forall_insert_2; [exact I | assumption]).
Qed.

Lemma serve_all_answers_in_step reqs iv : all_in_step iv -> all_in_step (serve_all reqs iv).
Proof.
  revert iv. induction reqs as [|req reqs IH]; intros iv Hinv; simpl; [assumption|].
  apply IH. by apply serve_answers_in_step.
Qed.

(** X19. In an engine without a remote client that started without
    sessions and has served any sequence of requests, a request that is
    a JSON object with a string as session identifier (and, for
    [submit_response], a string or nothing as response) is never
    answered with status 500 while the session it names is active or not
    stored: neither [submit_response] nor [get_report] can fail on it. *)
Theorem active_interview_never_fails iv0 reqs data sid text reply now r now' :
  sessions iv0 = ∅ ->
  groq_client iv0 = false ->
  let iv := serve_all reqs iv0 in
  json_session_id data = Some (JString sid) ->
  data_get_default (json_response data) = JString text ->
  (forall s, sessions iv !! sid = Some s -> session_status s = active) ->
  status_code (submit_response iv (Some data) reply now r now').1 <> 500
  /\ status_code (get_report iv (Some data) now).1 <> 500.
Proof.
  intros Hempty _ iv Hsid Htext Hactive.
  assert (all_in_step iv) as Hinv.
  { apply serve_all_answers_in_step. unfold all_in_step. rewrite Hempty.
    apply map_Forall_empty. }
  unfold all_in_step in Hinv. clearbody iv.
  split.
  - unfold submit_response. rewrite Hsid, Htext. simpl.
    destruct (decide _) as [_|_]; [discriminate|].
    destruct (sessions iv !! sid) as [s|] eqn:Hs;
      [|destruct (submit_answer_not_asked iv sid (strip text) reply now r now') as [e ->];
        [left; assumption | discriminate]].
    destruct (last (questions_asked s)) as [current|] eqn:Hlast;
      [|destruct (submit_answer_not_asked iv sid (strip text) reply now r now') as [e ->];
        [right; exists s; split; [assumption | by apply last_None] | discriminate]].
    pose proof (Hinv sid s Hs) as Hstep. unfold answers_in_step in Hstep.
    rewrite (Hactive s eq_refl) in Hstep.
    assert (length (responses s) < length (questions_asked s))%nat as Hlt.
    { destruct Hstep as [?|[_ Hnil]]; [assumption|]. rewrite Hnil in Hlast. discriminate. }
    destruct (submit_answer_outcome iv sid (strip text) reply now r now' s current Hs Hlast)
      as (s1 & ev & iv1 & Hs1 & _ & [(v & level & q & _ & _ & ->)
                                    | [(_ & rep & _ & ->) | (Hmore & _)]]);
      [discriminate | discriminate |].
    exfalso. destruct Hs1 as [(-> & _) | (-> & _)]; simpl in Hmore;
      rewrite ?length_app in Hmore; simpl in Hmore; lia.
  - unfold get_report. rewrite Hsid. simpl.
    destruct (decide _) as [_|_]; [discriminate|].
    destruct (generate_final_report_cases iv sid now)
      as [[_ ->] | (s & Hs & _ & [(_ & rep & Hrep) | (Hmore & _)])].
    + discriminate.
    + destruct (generate_final_report iv sid now) as [outcome iv1].
      simpl in Hrep. subst outcome. discriminate.
    + exfalso. pose proof (Hinv sid s Hs) as Hstep. unfold answers_in_step in Hstep.
      rewrite (Hactive s Hs) in Hstep. destruct Hstep as [?|[Hr Hq]]; [lia|].
      rewrite Hr, Hq in Hmore. simpl in Hmore. lia.
Qed.

Lemma active_interview_never_fails_witness :
  let iv := serve_all [ReqStart "s1" 0 0] (init default_config false) in
  status_code (submit_response iv (post "s1" fifteen_words) None 5 1 6).1 = 200
  /\ status_code (get_report iv (post "s1" fifteen_words) 7).1 = 200.
Proof.
  cbv zeta.
  destruct (active_interview_never_fails (init default_config false)
              [ReqStart "s1" 0 0%nat]
              {| json_session_id := Some (JString "s1");
                 json_response := Some (JString fifteen_words) |}
              "s1" fifteen_words None 5 1%nat 6)
    as [_ _].
  - reflexivity.
  - reflexivity.
  - reflexivity.
  - reflexivity.
  - intros s Hs. vm_compute in Hs. injection Hs as <-. reflexivity.
  - split; vm_compute; reflexivity.
Defined.

(** * [config.py] *)

(** X21. [validate_config] returns no error exactly when an API key is
    set, the four scoring weights sum to 100, the proficiency thresholds
    are strictly ascending, and [MAX_QUESTIONS] and
    [MIN_RESPONSE_LENGTH] are positive. The five checks are reported
    independently of each other: each message is present exactly when
    its check fails, so there are at most five errors. *)
Theorem validate_config_sound_complete (cls : ConfigPy.Config) :
  let thresholds := ConfigPy.PROFICIENCY_THRESHOLDS cls in
  let total := ConfigPy.total_weight (ConfigPy.SCORING_WEIGHTS cls) in
  let errors := ConfigPy.validate_config cls in
  (errors = [] <->
   default "" (ConfigPy.GROQ_API_KEY cls) <> ""
   /\ total = 100
   /\ ConfigPy.basic thresholds < ConfigPy.intermediate thresholds
   /\ ConfigPy.intermediate thresholds < ConfigPy.advanced thresholds
   /\ 0 < ConfigPy.MAX_QUESTIONS cls
   /\ 0 < ConfigPy.MIN_RESPONSE_LENGTH cls)
  /\ ("GROQ_API_KEY is required" ∈ errors
      <-> default "" (ConfigPy.GROQ_API_KEY cls) = "")
  /\ ("Scoring weights must sum to 100, current sum: " +:+ str total ∈ errors
      <-> total <> 100)
  /\ ("Proficiency thresholds must be in ascending order" ∈ errors
      <-> ~ (ConfigPy.basic thresholds < ConfigPy.intermediate thresholds
             /\ ConfigPy.intermediate thresholds < ConfigPy.advanced thresholds))
  /\ ("MAX_QUESTIONS must be positive" ∈ errors <-> ConfigPy.MAX_QUESTIONS cls <= 0)
  /\ ("MIN_RESPONSE_LENGTH must be positive" ∈ errors
      <-> ConfigPy.MIN_RESPONSE_LENGTH cls <= 0)
  /\ (length errors <= 5)%nat.
Proof.
  cbv zeta. unfold ConfigPy.validate_config.
  set (total := ConfigPy.total_weight _).
  set (message := "Scoring weights must sum to 100, current sum: " +:+ str total).
  assert (message <> "GROQ_API_KEY is required"
          /\ message <> "Proficiency thresholds must be in ascending order"
          /\ message <> "MAX_QUESTIONS must be positive"
          /\ message <> "MIN_RESPONSE_LENGTH must be positive") as (Hm1 & Hm2 & Hm3 & Hm4).
  { unfold message. simpl. repeat split; discriminate. }
  destruct (decide (default "" (ConfigPy.GROQ_API_KEY cls) = ""));
    destruct (decide (total <> 100));
    destruct (decide (~ (_ < _ /\ _ < _)));
    destruct (decide (ConfigPy.MAX_QUESTIONS cls <= 0));
    destruct (decide (ConfigPy.MIN_RESPONSE_LENGTH cls <= 0));
    simpl; rewrite ?elem_of_cons, ?elem_of_nil; split_and!;
    try (simpl; lia);
    (split;
     [ intros Hin;
       first [ discriminate Hin
             | split_and!; first [assumption | lia]
             | repeat (destruct Hin as [Hin|Hin]);
               first [assumption | congruence | lia | contradiction] ]
     | intros Hc;
       first [ reflexivity
             | exfalso; destruct Hc as (?&?&?&?&?&?); first [contradiction | lia]
             | exfalso; first [contradiction | lia | tauto]
             | repeat (first [left; reflexivity | right]) ] ]).
Qed.

(** [get_config] never fails: the names ['production'] and ['testing']
    select their classes and every other name, known or not, selects
    [DevelopmentConfig]; without a name the environment variable
    [FLASK_ENV] decides, and without that too the development class is
    taken. *)
Lemma get_config_fallback (config_name flask_env : option string) :
  let name :=
    match config_name with
    | Some name => name
    | None => default "development" flask_env
    end in
  (name = "production" -> ConfigPy.get_config config_name flask_env = ConfigPy.ProductionConfig)
  /\ (name = "testing" -> ConfigPy.get_config config_name flask_env = ConfigPy.TestingConfig)
  /\ (name <> "production" -> name <> "testing" ->
      ConfigPy.get_config config_name flask_env = ConfigPy.DevelopmentConfig)
  /\ ConfigPy.get_config None None = ConfigPy.DevelopmentConfig.
Proof.
  cbv zeta. unfold ConfigPy.get_config, ConfigPy.config_map_get.
  set (name := match config_name with Some name => name | None => _ end).
  split; [|split; [|split]].
  - intros ->. reflexivity.
  - intros ->. reflexivity.
  - intros Hp Ht. repeat (destruct (decide _)); try reflexivity; contradiction.
  - reflexivity.
Qed.

(** The development and the production class validate exactly as the
    base class does, whatever the production overrides are. The testing
    class fixes [MAX_QUESTIONS] and [MIN_RESPONSE_LENGTH] at positive
    values: it never reports these two and reports the other errors as
    the base class does. *)
Lemma config_classes_validate (base : ConfigPy.Config) (timeout rate : Z) :
  ConfigPy.validate_config (ConfigPy.attributes ConfigPy.DevelopmentConfig base timeout rate)
  = ConfigPy.validate_config base
  /\ ConfigPy.validate_config (ConfigPy.attributes ConfigPy.ProductionConfig base timeout rate)
     = ConfigPy.validate_config base
  /\ ConfigPy.validate_config (ConfigPy.attributes ConfigPy.TestingConfig base timeout rate)
     = filter (fun e => e <> "MAX_QUESTIONS must be positive"
                        /\ e <> "MIN_RESPONSE_LENGTH must be positive")
              (ConfigPy.validate_config base).
Proof.
  split; [reflexivity|]. split; [reflexivity|].
  unfold ConfigPy.validate_config. simpl.
  set (total := ConfigPy.total_weight _).
  set (message := "Scoring weights must sum to 100, current sum: " +:+ str total).
  assert (message <> "MAX_QUESTIONS must be positive"
          /\ message <> "MIN_RESPONSE_LENGTH must be positive") as Hm.
  { unfold message. simpl. split; discriminate. }
  destruct (decide (default "" (ConfigPy.GROQ_API_KEY base) = ""));
    destruct (decide (total <> 100));
    destruct (decide (~ (_ < _ /\ _ < _)));
    destruct (decide (ConfigPy.MAX_QUESTIONS base <= 0));
    destruct (decide (ConfigPy.MIN_RESPONSE_LENGTH base <= 0));
    simpl; rewrite ?filter_cons, ?filter_nil;
    repeat (destruct (decide (_ /\ _)) as [[? ?]|Hno];
            [| first [ exfalso; apply Hno; first [exact Hm | split; discriminate]
                     | idtac ] ]);
    try reflexivity; try congruence.
Qed.

(** X22. Validating the class that [get_config] selects: for the name
    ['testing'] (given, or read from [FLASK_ENV] when no name is given)
    the errors are those of the base class without the two about
    [MAX_QUESTIONS] and [MIN_RESPONSE_LENGTH], which the testing class
    fixes at positive values; for every other name, known or not, and
    without any name, they are exactly the errors of the base class,
    whatever the production overrides are. *)
Theorem selected_config_validates (config_name flask_env : option string)
    (base : ConfigPy.Config) (timeout rate : Z) :
  let name :=
    match config_name with
    | Some name => name
    | None => default "development" flask_env
    end in
  let cls := ConfigPy.get_config config_name flask_env in
  ConfigPy.validate_config (ConfigPy.attributes cls base timeout rate)
  = if decide (name = "testing")
    then filter (fun e => e <> "MAX_QUESTIONS must be positive"
                          /\ e <> "MIN_RESPONSE_LENGTH must be positive")
                (ConfigPy.validate_config base)
    else ConfigPy.validate_config base.
Proof.
  cbv zeta.
  destruct (get_config_fallback config_name flask_env) as (Hp & Ht & Hd & _).
  cbv zeta in Hp, Ht, Hd.
  destruct (config_classes_validate base timeout rate) as (Hdev & Hprod & Htest).
  set (name := match config_name with Some name => name | None => _ end) in *.
  destruct (decide (name = "testing")) as [Htesting|Hother].
  - rewrite (Ht Htesting). exact Htest.
  - destruct (decide (name = "production")) as [Hproduction|Hno].
    + rewrite (Hp Hproduction). exact Hprod.
    + rewrite (Hd Hno Hother). exact Hdev.
Qed.

Lemma validate_config_max_questions (cls : ConfigPy.Config) :
  "MAX_QUESTIONS must be positive" ∈ ConfigPy.validate_config cls
  <-> ConfigPy.MAX_QUESTIONS cls <= 0.
Proof.
  unfold ConfigPy.validate_config.
  set (total := ConfigPy.total_weight _).
  set (message := "Scoring weights must sum to 100, current sum: " +:+ str total).
  assert (message <> "MAX_QUESTIONS must be positive") as Hm.
  { unfold message. simpl. discriminate. }
  destruct (decide (default "" (ConfigPy.GROQ_API_KEY cls) = ""));
    destruct (decide (total <> 100));
    destruct (decide (~ (_ < _ /\ _ < _)));
    destruct (decide (ConfigPy.MAX_QUESTIONS cls <= 0));
    destruct (decide (ConfigPy.MIN_RESPONSE_LENGTH cls <= 0));
    simpl; rewrite ?elem_of_cons, ?elem_of_nil;
    (split;
     [ intros Hin; first [assumption
                         | repeat (destruct Hin as [Hin|Hin]);
                           first [congruence | contradiction] ]
     | intros Hc; first [contradiction | repeat (first [left; reflexivity | right]) ] ]).
Qed.

Lemma validate_config_positive (cls : ConfigPy.Config) :
  ConfigPy.validate_config cls = [] -> 0 < ConfigPy.MAX_QUESTIONS cls.
Proof.
  intros Hvalid. pose proof (validate_config_max_questions cls) as Hmax.
  rewrite Hvalid, elem_of_nil in Hmax. lia.
Qed.

(** X23. The check of [MAX_QUESTIONS] in [validate_config] is the
    condition for an interview to open. For an engine with the loaded
    bank whose [max_questions] is the configuration's [MAX_QUESTIONS]
    (both read the same environment variable), [start_interview] always
    answers with status 200 and the new session identifier, and it
    carries no question exactly when [validate_config] reports
    ["MAX_QUESTIONS must be positive"]. With an accepted configuration
    the question is question 1 of [MAX_QUESTIONS]. *)
Theorem validate_config_guards_start_interview (cls : ConfigPy.Config) iv uuid now r :
  max_questions (interviewer_config iv) = ConfigPy.MAX_QUESTIONS cls ->
  questions iv = load_questions ->
  exists body iv',
    start_interview iv uuid now r = (Ok body, iv')
    /\ start_session_id body = uuid
    /\ ("MAX_QUESTIONS must be positive" ∈ ConfigPy.validate_config cls
        <-> start_question body = None)
    /\ (ConfigPy.validate_config cls = [] ->
        exists v, start_question body = Some v
                  /\ question_number v = 1
                  /\ total_questions v = ConfigPy.MAX_QUESTIONS cls).
Proof.
  intros Hcfg Hbank.
  pose proof (validate_config_max_questions cls) as Hcheck.
  pose proof (validate_config_positive cls) as Hvalid.
  unfold start_interview. simpl.
  set (iv1 := with_sessions iv (<[uuid := new_session uuid now]> (sessions iv))).
  destruct (get_next_question_cases iv1 uuid r)
    as [Hnone | (s & first & rest & Hs & _ & _ & Hlt & Hnext)].
  - rewrite Hnone. eexists _, _. split; [reflexivity|]. simpl.
    split; [reflexivity|].
    assert (ConfigPy.MAX_QUESTIONS cls <= 0) as Hmax.
    { destruct (Z.le_gt_cases (ConfigPy.MAX_QUESTIONS cls) 0) as [|Hpos]; [assumption|].
      exfalso.
      destruct (get_next_question_Some_intro iv1 uuid r (new_session uuid now))
        as (v & iv2 & Hsome).
      + simpl. apply lookup_insert_eq.
      + reflexivity.
      + unfold available_questions. simpl. rewrite Hbank. discriminate.
      + simpl. rewrite Hcfg. simpl. lia.
      + congruence. }
    split; [tauto|]. intros Hok. specialize (Hvalid Hok). lia.
  - cbv zeta in Hnext. rewrite Hnext.
    simpl in Hs. rewrite lookup_insert_eq in Hs. injection Hs as <-.
    simpl in Hlt. rewrite Hcfg in Hlt.
    eexists _, _. split; [reflexivity|]. simpl.
    split; [reflexivity|]. split.
    + split; [intros Hin; apply Hcheck in Hin; lia | discriminate].
    + intros _. eexists. split; [reflexivity|]. simpl.
      split; [reflexivity | exact Hcfg].
Qed.

Lemma validate_config_guards_start_interview_witness :
  exists body iv',
    start_interview (init default_config false) "s1" 0 0 = (Ok body, iv')
    /\ start_session_id body = "s1"
    /\ exists v, start_question body = Some v /\ question_number v = 1.
Proof.
  destruct (validate_config_guards_start_interview
              (ConfigPy.default_Config (Some "key"))
              (init default_config false) "s1" 0 0%nat)
    as (body & iv' & Hcall & Hid & _ & Hfirst); [reflexivity | reflexivity |].
  exists body, iv'. split; [assumption|]. split; [assumption|].
  destruct (Hfirst eq_refl) as (v & Hv & Hnumber & _). eauto.
Defined.

(** * [health_check] *)

Lemma count_active_insert_fresh m sid s :
  m !! sid = None ->
  count_active (<[sid := s]> m)
  = ((if decide (session_status s = active) then 1 else 0) + count_active m)%nat.
Proof.
  intros Hfresh. unfold count_active.
  rewrite (map_to_list_insert m sid s Hfresh). simpl. rewrite filter_cons.
  destruct (decide (session_status s = active)); reflexivity.
Qed.

Lemma count_active_insert m sid s :
  (count_active (<[sid := s]> m)
   + match m !! sid with
     | Some old => if decide (session_status old = active) then 1 else 0
     | None => 0
     end
   = (if decide (session_status s = active) then 1 else 0) + count_active m)%nat.
Proof.
  destruct (m !! sid) as [old|] eqn:Hold.
  - rewrite <- (insert_delete_eq m sid s).
    rewrite <- (insert_delete_id m sid old Hold) at 2.
    rewrite !count_active_insert_fresh by apply lookup_delete_eq. lia.
  - rewrite count_active_insert_fresh by assumption. lia.
Qed.

(** Replacing a stored session by one with the same status keeps the
    count; replacing it by a completed one lowers the count by one if the
    session was active. *)
Lemma count_active_update m sid old s :
  m !! sid = Some old ->
  (session_status s = session_status old ->
   count_active (<[sid := s]> m) = count_active m)
  /\ (session_status s = completed ->
      (count_active (<[sid := s]> m)
       + (if decide (session_status old = active) then 1 else 0)
       = count_active m)%nat).
Proof.
  intros Hold. pose proof (count_active_insert m sid s) as Hcount.
  rewrite Hold in Hcount. split; intros Hstatus.
  - rewrite Hstatus in Hcount.
    destruct (decide (session_status old = active)); lia.
  - rewrite Hstatus in Hcount.
    destruct (decide (completed = active)) as [Hno|_]; [discriminate Hno|]. lia.
Qed.

Lemma submit_answer_count_active iv sid response reply now r now' :
  (count_active (sessions (submit_answer iv sid response reply now r now').2)
   <= count_active (sessions iv))%nat.
Proof.
  destruct (sessions iv !! sid) as [s|] eqn:Hs;
    [|destruct (submit_answer_not_asked iv sid response reply now r now') as [e ->];
      [left; assumption | reflexivity]].
  destruct (last (questions_asked s)) as [current|] eqn:Hlast;
    [|destruct (submit_answer_not_asked iv sid response reply now r now') as [e ->];
      [right; exists s; split; [assumption | by apply last_None] | reflexivity]].
  destruct (submit_answer_outcome iv sid response reply now r now' s current Hs Hlast)
    as (s1 & ev & iv1 & Hs1 & _ & [(v & level & q & Hactive & _ & ->)
                                  | [(_ & rep & _ & ->) | (_ & ->)]]); simpl.
  - destruct (count_active_update (sessions iv) sid s (ask s1 level q) Hs) as [Hsame _].
    rewrite Hsame; [lia|].
    destruct Hs1 as [(-> & _) | (-> & _)]; reflexivity.
  - destruct (count_active_update (sessions iv) sid s (complete s1 now') Hs) as [_ Hdone].
    specialize (Hdone eq_refl). lia.
  - destruct (count_active_update (sessions iv) sid s (complete s1 now') Hs) as [_ Hdone].
    specialize (Hdone eq_refl). lia.
Qed.

(** X20. The number of active sessions that [health_check] reports
    follows the interviews: [start_interview] with an unused identifier
    raises it by one, [submit_response] never raises it, whatever the
    request, and [get_report] for a stored active session lowers it by
    one, since the report completes the session whether or not all
    questions were asked. *)
Theorem health_check_active_sessions iv :
  let active_sessions iv := health_active_sessions (health_check iv) in
  (forall uuid now r,
      sessions iv !! uuid = None ->
      active_sessions (start_interview iv uuid now r).2 = S (active_sessions iv))
  /\ (forall body reply now r now',
         (active_sessions (submit_response iv body reply now r now').2
          <= active_sessions iv)%nat)
  /\ (forall data sid now s,
         json_session_id data = Some (JString sid) ->
         sid <> "" ->
         sessions iv !! sid = Some s ->
         session_status s = active ->
         S (active_sessions (get_report iv (Some data) now).2) = active_sessions iv).
Proof.
  cbv zeta. unfold health_check. simpl. split; [|split].
  - intros uuid now r Hfresh. unfold start_interview. simpl.
    set (iv1 := with_sessions iv (<[uuid := new_session uuid now]> (sessions iv))).
    assert (count_active (sessions iv1) = S (count_active (sessions iv))) as Hcreated.
    { simpl. rewrite count_active_insert_fresh by assumption. reflexivity. }
    destruct (get_next_question_cases iv1 uuid r)
      as [-> | (s & first & rest & Hs & Hactive & _ & _ & Hnext)]; [exact Hcreated|].
    cbv zeta in Hnext. rewrite Hnext. simpl.
    rewrite insert_insert_eq, count_active_insert_fresh by assumption.
    simpl in Hs. rewrite lookup_insert_eq in Hs. injection Hs as <-.
    reflexivity.
  - intros body reply now r now'. unfold submit_response.
    destruct body as [data|]; [|reflexivity].
    destruct (data_get_default (json_response data)); try reflexivity.
    destruct (decide _) as [_|_]; [reflexivity|].
    destruct (data_get (json_session_id data)); try reflexivity.
    apply submit_answer_count_active.
  - intros data sid now s Hsid Hid Hs Hactive. unfold get_report. rewrite Hsid. simpl.
    destruct (decide _) as [Hno|_].
    { apply negb_false_iff, bool_decide_eq_true in Hno. contradiction. }
    destruct (generate_final_report_cases iv sid now)
      as [[Hnone _] | (s0 & Hs0 & Hstate & _)]; [congruence|].
    assert (s0 = s) as -> by congruence.
    destruct (generate_final_report iv sid now) as [[[rep|]|e] iv1];
      simpl in Hstate; subst iv1; simpl;
      destruct (count_active_update (sessions iv) sid s (complete s now) Hs) as [_ Hdone];
      specialize (Hdone eq_refl);
      (destruct (decide (session_status s = active)) as [_|Hne]; [lia | contradiction]).
Qed.
